(** * neo_localization: the localization node, embedded and verified

    Shallow embedding of [src/neo_localization_node.cpp]: the three ROS
    callbacks of [NeoLocalizationNode] ([scan_callback], [pose_callback],
    [map_callback]), [broadcast], the constructor, and the helpers in front
    of the class ([rotate25_z], [rotate3_z], [translate25],
    [convert_transform_25], [convert_transform_3]).

    Numbers.  [double] and [float] values are modelled as exact rationals
    ([Q]): every arithmetic operation is the exact one, there is no rounding,
    no infinity and no NaN.  The one place where the node tests a number it
    is handed from outside, the ranges of a scan, has its own type
    ([float32]) with the infinities and NaN.  [M_PI] is the rational the C
    constant denotes.
    Integers ([int] loop bounds and parameters) are [Z]; container sizes and
    indices are [nat].

    State.  A callback is a function from the node (and the message, and the
    tf buffer it consults) to the new node and the list of things it sent out
    (transforms, log lines), in order. *)

From Stdlib Require Import ZArith QArith Qabs Qpower Lia Lqa String.
From stdpp Require Import base list.

Local Open Scope Q_scope.

Definition double := Q.
Definition float := Q.

#[global] Instance Q_inhabited : Inhabited Q := populate 0.

(** A [float] as a message delivers it: a number, an infinity, or NaN. *)
Inductive float32 :=
| Finite (q : Q)
| PosInf
| NegInf
| NaN.

(** [r <= 0] and [0 < r] as IEEE comparison has them: both are false of
    NaN. *)
Definition le_zero (r : float32) : bool :=
  match r with
  | Finite q => Qle_bool q 0
  | NegInf => true
  | PosInf | NaN => false
  end.

Definition positive (r : float32) : Prop :=
  match r with
  | Finite q => 0 < q
  | PosInf => True
  | NegInf | NaN => False
  end.

#[global] Instance Qlt_decision (a b : Q) : Decision (a < b).
Proof.
  destruct (Qlt_le_dec a b) as [Hlt | Hle].
  - left. exact Hlt.
  - right. apply Qle_not_lt. exact Hle.
Defined.

#[global] Instance positive_decision (r : float32) : Decision (positive r).
Proof.
  destruct r as [q| | |]; cbn [positive].
  - apply Qlt_decision.
  - left. exact I.
  - right. intros H. exact H.
  - right. intros H. exact H.
Defined.

(** ** <cmath> on exact numbers *)

(** [fmax], [fminf]: the larger, the smaller of the two arguments. *)
Definition fmax (a b : double) : double := if Qle_bool a b then b else a.
Definition fminf (a b : float) : float := if Qle_bool a b then a else b.

(** [trunc]: the integer part, rounding toward zero. *)
Definition trunc (a : double) : Z := Z.quot (Qnum a) (Zpos (Qden a)).

(** [fmod x y]: [x - n * y] where [n] is [x / y] with its fraction cut off. *)
Definition fmod (x y : double) : double := x - inject_Z (trunc (x / y)) * y.

(** [M_PI] as the IEEE double the macro expands to,
    3.141592653589793115997963468544185161590576171875. *)
Definition M_PI : double := 884279719003555 # 281474976710656.

(** ** ROS [angles] package (angles/angles.h), included by the node *)
Module angles.

(** [normalize_angle]: the angle brought into the half-open turn around 0. *)
Definition normalize_angle (angle : double) : double :=
  let result := fmod (angle + M_PI) (2 * M_PI) in
  if Qle_bool result 0 then result + M_PI else result - M_PI.

(** [shortest_angular_distance from to]: what to add to [from] to reach
    [to] on the shorter side. *)
Definition shortest_angular_distance (from to : double) : double :=
  normalize_angle (to - from).

End angles.

(** The low pass filter on the yaw, [m_offset_yaw +=
    angles::shortest_angular_distance(m_offset_yaw, new_offset[2]) *
    m_update_gain], as a function of the three values it reads. *)
Definition blend_yaw (offset_yaw new_yaw update_gain : double) : double :=
  offset_yaw + angles.shortest_angular_distance offset_yaw new_yaw * update_gain.

(** ** Matrix<T, N, M> *)

(** A matrix is the list of its rows.  [Matrix<double, 4, 1>] is a column of
    four one-element rows. *)
Definition Matrix := list (list Q).

(** [M(i, j)] and [v[i]] as r-values. *)
Definition mat_get (m : Matrix) (i j : nat) : Q := (m !!! i) !!! j.
Definition vec_get (v : Matrix) (i : nat) : Q := mat_get v i 0.

(** [M(i, j) = x]. *)
Definition mat_set (m : Matrix) (i j : nat) (x : Q) : Matrix :=
  <[i := <[j := x]> (m !!! i)]> m.

(** A default-constructed [Matrix<T, N, M>], taken to be all zeros: the
    header is not among the sources, and [convert_transform_25] and
    [convert_transform_3] leave the entries they do not set to it. *)
Definition Matrix_zero (rows cols : nat) : Matrix :=
  replicate rows (replicate cols 0).

(** Modelled from the spec: [Matrix::operator*], whose header is not among
    the sources; "composition is matrix product". *)
Definition dot (u v : list Q) : Q :=
  foldr Qplus 0 (zip_with Qmult u v).
Definition column (m : Matrix) (j : nat) : list Q :=
  map (fun row => row !!! j) m.
Definition mat_mul (a b : Matrix) : Matrix :=
  map (fun row => map (fun j => dot row (column b j))
                      (seq 0 (length (hd [] b)))) a.

Infix "**" := mat_mul (at level 40, left associativity).

(** ** Messages and tf types *)

(** [ros::Time]; [ros::Time()] is the zero time. *)
Record Time := { sec : Z; nsec : Z }.
Definition Time_zero : Time := {| sec := 0; nsec := 0 |}.

Record Header := { stamp : Time; frame_id : string }.

Record Quaternion := { q_x : double; q_y : double; q_z : double; q_w : double }.
Record Point := { p_x : double; p_y : double; p_z : double }.

(** [geometry_msgs::Pose]. *)
Record Pose := { position : Point; orientation : Quaternion }.

(** [tf::Transform]: a 3x3 basis and an origin. *)
Record tf_Transform := { getBasis : Matrix; getOrigin : list Q }.

(** [sensor_msgs::LaserScan], the fields the node reads. *)
Record LaserScan := {
  scan_header : Header;
  angle_min : float;
  angle_increment : float;
  ranges : list float32
}.

(** [nav_msgs::OccupancyGrid]; [data] holds [int8] cells, row-major. *)
Record MapMetaData := {
  resolution : float;
  width : nat;
  height : nat;
  origin : Pose
}.
Record OccupancyGrid := { info : MapMetaData; data : list Z }.

(** [geometry_msgs::PoseWithCovarianceStamped], the fields the node reads. *)
Record PoseWithCovarianceStamped := { pose_header : Header; pose_pose : Pose }.

(** [geometry_msgs::TransformStamped]. *)
Record TransformStamped := {
  ts_stamp : Time;
  ts_frame_id : string;
  ts_child_frame_id : string;
  ts_translation : Point;
  ts_rotation : Quaternion
}.

(** What a callback sends out: a transform through the broadcaster, or a
    line through [ROS_WARN_STREAM] / [ROS_INFO_STREAM]. *)
Inductive Warning :=
| LookupSensorToBaseFailed
| LookupBaseToOdomFailed
| NumberOfPointsTooLow (n : nat)
| InvalidPoseEstimateFrame (frame : string)
| InvalidMapDimensions.

Inductive Notice :=
| ScanResult (r_norm confidence : double)
| GotNewPoseEstimate
| GotMap (w h : nat) (cell : float)
| SmoothIter (i : nat).

Inductive Output :=
| sendTransform (t : TransformStamped)
| ROS_WARN (w : Warning)
| ROS_INFO (m : Notice).

Definition is_sendTransform (o : Output) : bool :=
  match o with sendTransform _ => true | _ => false end.

(** [tf::TransformListener::lookupTransform target source time]: the
    transform, or [None] where the call throws. *)
Definition TransformListener := string -> string -> Time -> option tf_Transform.

(** The parameter server behind [ros::NodeHandle::param]. *)
Record NodeHandle := {
  get_bool : string -> option bool;
  get_string : string -> option string;
  get_int : string -> option Z;
  get_double : string -> option double
}.

(** [nh.param(name, var, fallback)]: the configured value, else the fallback. *)
Definition param {A} (get : string -> option A) (name : string) (fallback : A) : A :=
  match get name with Some v => v | None => fallback end.

(** ** GridMap<float> and Solver (headers not among the sources) *)

(** Modelled from the spec: [GridMap<float>] of include/GridMap.h: "square
    array of size N x N, cell edge length resolution"; [construct(size,
    resolution)] "allocates an N x N grid initialized to 0"; cell [(x, y)] is
    read and written through [operator()]. *)
Record GridMap := { gm_size : nat; gm_scale : float; gm_cells : list (list float) }.

Definition GridMap_new (size : nat) (scale : float) : GridMap :=
  {| gm_size := size; gm_scale := scale;
     gm_cells := replicate size (replicate size 0) |}.

Definition gm_get (g : GridMap) (x y : nat) : float := (gm_cells g !!! y) !!! x.

Definition gm_set (g : GridMap) (x y : nat) (v : float) : GridMap :=
  {| gm_size := gm_size g; gm_scale := gm_scale g;
     gm_cells := <[y := <[x := v]> (gm_cells g !!! y)]> (gm_cells g) |}.

(** The cell at signed coordinates, a coordinate outside the grid being
    taken to the nearest border. *)
Definition clamp (i : Z) (size : nat) : nat :=
  Z.to_nat (Z.min (Z.max i 0) (Z.of_nat size - 1)).

Definition gm_get_clamped (g : GridMap) (x y : Z) : float :=
  gm_get g (clamp x (gm_size g)) (clamp y (gm_size g)).

(** Modelled from the spec: [GridMap::downscale] of include/GridMap.h, which
    "produces a new grid of half the linear size (N/2) and double the
    resolution, each output cell aggregating (e.g., averaging) the
    corresponding 2x2 source block". *)
Definition GridMap_downscale (g : GridMap) : GridMap :=
  let half := (gm_size g / 2)%nat in
  {| gm_size := half; gm_scale := 2 * gm_scale g;
     gm_cells :=
       map (fun y => map (fun x =>
              (gm_get g (2 * x) (2 * y) + gm_get g (2 * x + 1) (2 * y)
               + gm_get g (2 * x) (2 * y + 1)
               + gm_get g (2 * x + 1) (2 * y + 1)) / 4)
            (seq 0 half)) (seq 0 half) |}.

(** Modelled from the spec: [GridMap::smooth_33_1] of include/GridMap.h, one
    pass of "a 3x3 box-average kernel", each pass reading "from the previous
    pass's values only"; a read outside the grid returns the "boundary
    value (clamped ...)", which is what leaves a uniform grid unchanged. *)
Definition GridMap_smooth_33_1 (g : GridMap) : GridMap :=
  {| gm_size := gm_size g; gm_scale := gm_scale g;
     gm_cells :=
       map (fun y => map (fun x =>
              let X := Z.of_nat x in
              let Y := Z.of_nat y in
              (gm_get_clamped g (X - 1) (Y - 1) + gm_get_clamped g X (Y - 1)
               + gm_get_clamped g (X + 1) (Y - 1)
               + gm_get_clamped g (X - 1) Y + gm_get_clamped g X Y
               + gm_get_clamped g (X + 1) Y
               + gm_get_clamped g (X - 1) (Y + 1) + gm_get_clamped g X (Y + 1)
               + gm_get_clamped g (X + 1) (Y + 1)) / 9)
            (seq 0 (gm_size g))) (seq 0 (gm_size g)) |}.

(** A grid all of whose cells are likelihoods. *)
Definition in_unit (g : GridMap) : Prop :=
  forall x y, (x < gm_size g)%nat -> (y < gm_size g)%nat ->
    0 <= gm_get g x y <= 1.

(** A grid that has its [gm_size] rows of [gm_size] cells. *)
Definition grid_ok (g : GridMap) : Prop :=
  length (gm_cells g) = gm_size g
  /\ forall y, (y < gm_size g)%nat -> length (gm_cells g !!! y) = gm_size g.

(** [scan_point_t]. *)
Record scan_point_t := { pt_x : float32; pt_y : float32; pt_w : float32 }.

(** [Solver], the members the node touches. *)
Record Solver := {
  pose_x : double;
  pose_y : double;
  pose_yaw : double;
  gain : double;
  damping : double;
  r_norm : double
}.

Definition set_pose (s : Solver) (x y yaw : double) : Solver :=
  {| pose_x := x; pose_y := y; pose_yaw := yaw;
     gain := gain s; damping := damping s; r_norm := r_norm s |}.

Definition set_gain_damping (s : Solver) (g d : double) : Solver :=
  {| pose_x := pose_x s; pose_y := pose_y s; pose_yaw := pose_yaw s;
     gain := g; damping := d; r_norm := r_norm s |}.

(** ** What the node calls and the sources do not define

    libm ([std::cos], [std::sin]), the rest of the [Matrix] header
    ([inverse], [project]), [Solver::solve], [GridMap::downscale] and
    [GridMap::smooth_33_1], the tf conversions, and the random number
    library: [std::mt19937] and [std::normal_distribution<double>], whose
    object carries its two parameters and a private state that a draw may
    change.  Two more stand for what exact numbers and lists do not define:
    [nonfinite_point] is the x and y that floating point arithmetic makes of
    the point of a range that is an infinity or NaN (given the sensor matrix
    and the angle), and [unchecked_read] is what [data[i]] finds at an index
    past the end of the map's data. *)
Class Extern := {
  cos : double -> double;
  sin : double -> double;
  inverse : Matrix -> Matrix;
  project : Matrix -> Matrix;
  Solver_default : Solver;
  solve : GridMap -> list scan_point_t -> float -> Solver -> Solver;
  downscale : GridMap -> GridMap;
  smooth_33_1 : GridMap -> GridMap;
  getRotation : tf_Transform -> Quaternion;
  getYaw : Quaternion -> double;
  poseMsgToTF : Pose -> tf_Transform;
  createQuaternionFromYaw : double -> Quaternion;
  mt19937 : Type;
  mt19937_default : mt19937;
  normal_state : Type;
  normal_reset : normal_state;
  normal_draw : double -> double -> normal_state -> mt19937 ->
                double * normal_state * mt19937;
  nonfinite_point : Matrix -> double -> float32 -> float32 * float32;
  unchecked_read : list Z -> nat -> Z
}.

Section Node.

Context {E : Extern}.

(** ** Helpers in front of the class *)

Definition rotate25_z (rad : double) : Matrix :=
  [[cos rad; - sin rad; 0; 0];
   [sin rad; cos rad; 0; 0];
   [0; 0; 1; rad];
   [0; 0; 0; 1]].

Definition rotate3_z (rad : double) : Matrix :=
  [[cos rad; - sin rad; 0; 0];
   [sin rad; cos rad; 0; 0];
   [0; 0; 1; 0];
   [0; 0; 0; 1]].

Definition translate25 (x y : double) : Matrix :=
  [[1; 0; 0; x];
   [0; 1; 0; y];
   [0; 0; 1; 0];
   [0; 0; 0; 1]].

Definition convert_transform_25 (trans : tf_Transform) : Matrix :=
  let res := Matrix_zero 4 4 in
  let res := mat_set res 0 0 (mat_get (getBasis trans) 0 0) in
  let res := mat_set res 1 0 (mat_get (getBasis trans) 1 0) in
  let res := mat_set res 0 1 (mat_get (getBasis trans) 0 1) in
  let res := mat_set res 1 1 (mat_get (getBasis trans) 1 1) in
  let res := mat_set res 0 3 (getOrigin trans !!! 0%nat) in
  let res := mat_set res 1 3 (getOrigin trans !!! 1%nat) in
  let res := mat_set res 2 3 (getYaw (getRotation trans)) in
  let res := mat_set res 2 2 1 in
  let res := mat_set res 3 3 1 in
  res.

Definition convert_transform_3 (trans : tf_Transform) : Matrix :=
  let res := Matrix_zero 4 4 in
  let res :=
    fold_left (fun res j =>
      fold_left (fun res i => mat_set res i j (mat_get (getBasis trans) i j))
                (seq 0 3) res)
      (seq 0 3) res in
  let res := mat_set res 0 3 (getOrigin trans !!! 0%nat) in
  let res := mat_set res 1 3 (getOrigin trans !!! 1%nat) in
  let res := mat_set res 2 3 (getOrigin trans !!! 2%nat) in
  let res := mat_set res 3 3 1 in
  res.

(** [Matrix<double, 4, 1>{a, b, c, d}]. *)
Definition column4 (a b c d : double) : Matrix := [[a]; [b]; [c]; [d]].

(** ** The node *)

(** The members of [NeoLocalizationNode], leaving out the mutex, the
    subscribers and the tf objects (the tf buffer is an argument of the
    callbacks, what the broadcaster sends is their output). *)
Record Node := {
  m_broadcast_tf : bool;
  m_base_frame : string;
  m_odom_frame : string;
  m_map_frame : string;
  m_map_downscale : Z;
  m_num_smooth : Z;
  m_solver_iterations : Z;
  m_sample_rate : Z;
  m_update_gain : double;
  m_confidence_gain : double;
  m_max_confidence : double;
  m_sample_std_x : double;
  m_sample_std_y : double;
  m_sample_std_yaw : double;
  m_offset_x : double;
  m_offset_y : double;
  m_offset_yaw : double;
  m_confidence : double;
  m_offset_time : Time;
  m_grid_to_map : Matrix;
  m_map : option GridMap;
  m_solver : Solver;
  m_generator : mt19937
}.

(** Assignment to the members that change after construction. *)
Definition assign (n : Node) (ox oy oyaw conf : double) (t : Time)
    (g2m : Matrix) (map : option GridMap) (s : Solver) (g : mt19937) : Node :=
  {| m_broadcast_tf := m_broadcast_tf n;
     m_base_frame := m_base_frame n;
     m_odom_frame := m_odom_frame n;
     m_map_frame := m_map_frame n;
     m_map_downscale := m_map_downscale n;
     m_num_smooth := m_num_smooth n;
     m_solver_iterations := m_solver_iterations n;
     m_sample_rate := m_sample_rate n;
     m_update_gain := m_update_gain n;
     m_confidence_gain := m_confidence_gain n;
     m_max_confidence := m_max_confidence n;
     m_sample_std_x := m_sample_std_x n;
     m_sample_std_y := m_sample_std_y n;
     m_sample_std_yaw := m_sample_std_yaw n;
     m_offset_x := ox;
     m_offset_y := oy;
     m_offset_yaw := oyaw;
     m_confidence := conf;
     m_offset_time := t;
     m_grid_to_map := g2m;
     m_map := map;
     m_solver := s;
     m_generator := g |}.

Definition set_solver (n : Node) (s : Solver) : Node :=
  assign n (m_offset_x n) (m_offset_y n) (m_offset_yaw n) (m_confidence n)
         (m_offset_time n) (m_grid_to_map n) (m_map n) s (m_generator n).

Definition set_offset (n : Node) (ox oy oyaw : double) (t : Time) : Node :=
  assign n ox oy oyaw (m_confidence n) t (m_grid_to_map n) (m_map n)
         (m_solver n) (m_generator n).

Definition set_confidence (n : Node) (conf : double) : Node :=
  assign n (m_offset_x n) (m_offset_y n) (m_offset_yaw n) conf
         (m_offset_time n) (m_grid_to_map n) (m_map n) (m_solver n)
         (m_generator n).

Definition set_map (n : Node) (g2m : Matrix) (map : GridMap) : Node :=
  assign n (m_offset_x n) (m_offset_y n) (m_offset_yaw n) (m_confidence n)
         (m_offset_time n) g2m (Some map) (m_solver n) (m_generator n).

(** [NeoLocalizationNode::NeoLocalizationNode]: every parameter from the
    parameter server or its default; the other members as their in-class
    initialisers leave them. *)
Definition NeoLocalizationNode (nh : NodeHandle) : Node :=
  {| m_broadcast_tf := param (get_bool nh) "broadcast_tf" true;
     m_base_frame := param (get_string nh) "base_frame" "base_link"%string;
     m_odom_frame := param (get_string nh) "odom_frame" "odom"%string;
     m_map_frame := param (get_string nh) "map_frame" "map"%string;
     m_map_downscale := param (get_int nh) "map_downscale" 0%Z;
     m_num_smooth := param (get_int nh) "num_smooth" 5%Z;
     m_solver_iterations := param (get_int nh) "solver_iterations" 20%Z;
     m_sample_rate := param (get_int nh) "sample_rate" 10%Z;
     m_update_gain := param (get_double nh) "update_gain" (1 # 2);
     m_confidence_gain := param (get_double nh) "confidence_gain" (1 # 100);
     m_max_confidence := param (get_double nh) "max_confidence" (95 # 100);
     m_sample_std_x := param (get_double nh) "sample_std_x" (1 # 2);
     m_sample_std_y := param (get_double nh) "sample_std_y" (1 # 2);
     m_sample_std_yaw := param (get_double nh) "sample_std_yaw" (1 # 2);
     m_offset_x := 0;
     m_offset_y := 0;
     m_offset_yaw := 0;
     m_confidence := 0;
     m_offset_time := Time_zero;
     m_grid_to_map := Matrix_zero 4 4;
     m_map := None;
     m_solver :=
       set_gain_damping Solver_default
         (param (get_double nh) "solver_gain" (1 # 10))
         (param (get_double nh) "solver_damping" 1000);
     m_generator := mt19937_default |}.

(** [broadcast]. *)
Definition broadcast (n : Node) : list Output :=
  if m_broadcast_tf n then
    [sendTransform
       {| ts_stamp := m_offset_time n;
          ts_frame_id := m_map_frame n;
          ts_child_frame_id := m_odom_frame n;
          ts_translation := {| p_x := m_offset_x n; p_y := m_offset_y n; p_z := 0 |};
          ts_rotation := createQuaternionFromYaw (m_offset_yaw n) |}]
  else [].

(** ** scan_callback *)

(** The loop over [scan->ranges]: a range for which [<= 0] holds is
    skipped, every other one becomes a point in the base frame, also an
    infinite one and NaN; [i] is the index of the head of [rs] in
    [scan->ranges]. *)
Fixpoint scan_points (S : Matrix) (scan : LaserScan) (i : nat) (rs : list float32)
    : list scan_point_t :=
  match rs with
  | [] => []
  | r :: rest =>
      if le_zero r then scan_points S scan (i + 1) rest
      else
        let angle := angle_min scan
                     + inject_Z (Z.of_nat i) * angle_increment scan in
        let point :=
          match r with
          | Finite range =>
              let scan_pos :=
                project (S ** rotate3_z angle ** column4 range 0 0 1) in
              {| pt_x := Finite (vec_get scan_pos 0);
                 pt_y := Finite (vec_get scan_pos 1);
                 pt_w := Finite 1 |}
          | _ =>
              {| pt_x := fst (nonfinite_point S angle r);
                 pt_y := snd (nonfinite_point S angle r);
                 pt_w := Finite 1 |}
          end in
        point :: scan_points S scan (i + 1) rest
  end.

(** How the callback gets to the search, or why it returns before. *)
Inductive Prepared :=
| Skipped (n : Node) (out : list Output)
| Ready (map : GridMap) (L : Matrix) (points : list scan_point_t) (guess : Solver).

Definition is_ready (p : Prepared) : bool :=
  match p with Ready _ _ _ _ => true | Skipped _ _ => false end.

(** "set initial guess to odometry prediction": the pose in the grid that
    the odometry [L] and the current offset stand for. *)
Definition odometry_prediction (n : Node) (L : Matrix) : Matrix :=
  let T := translate25 (m_offset_x n) (m_offset_y n)
           ** rotate25_z (m_offset_yaw n) in
  project (inverse (m_grid_to_map n) ** T ** L ** column4 0 0 0 1).

(** From the entry of [scan_callback] to the check of the number of points.
    [guess] is [m_solver] with the odometry prediction as its pose. *)
Definition scan_prepare (n : Node) (tf : TransformListener) (scan : LaserScan)
    : Prepared :=
  match m_map n with
  | None => Skipped n []
  | Some map =>
    match tf (m_base_frame n) (frame_id (scan_header scan))
             (stamp (scan_header scan)) with
    | None => Skipped n [ROS_WARN LookupSensorToBaseFailed]
    | Some sensor_to_base =>
      match tf (m_odom_frame n) (m_base_frame n) (stamp (scan_header scan)) with
      | None => Skipped n [ROS_WARN LookupBaseToOdomFailed]
      | Some base_to_odom =>
        let S := convert_transform_3 sensor_to_base in
        let L := convert_transform_25 base_to_odom in
        let grid_pose := odometry_prediction n L in
        let guess :=
          set_pose (m_solver n) (vec_get grid_pose 0) (vec_get grid_pose 1)
                   (vec_get grid_pose 2) in
        let points := scan_points S scan 0 (ranges scan) in
        if (length points <? 10)%nat then
          Skipped (set_solver n guess)
                  [ROS_WARN (NumberOfPointsTooLow (length points))]
        else Ready map L points guess
      end
    end
  end.

(** [std::normal_distribution<double>] and its [operator()]. *)
Record normal_distribution := {
  nd_mean : double;
  nd_stddev : double;
  nd_state : normal_state
}.

Definition normal_distribution_new (mean stddev : double) : normal_distribution :=
  {| nd_mean := mean; nd_stddev := stddev; nd_state := normal_reset |}.

Definition draw (d : normal_distribution) (g : mt19937)
    : double * normal_distribution * mt19937 :=
  let '(v, st, g') := normal_draw (nd_mean d) (nd_stddev d) (nd_state d) g in
  (v, {| nd_mean := nd_mean d; nd_stddev := nd_stddev d; nd_state := st |}, g').

(** The locals and members the search works on. *)
Record Search := {
  s_solver : Solver;
  s_generator : mt19937;
  dist_x : normal_distribution;
  dist_y : normal_distribution;
  dist_yaw : normal_distribution;
  best_x : double;
  best_y : double;
  best_yaw : double;
  best_score : double
}.

(** The inner loop: [m_solver_iterations] calls of [m_solver.solve<float>]
    on the map and the points, with weight 1. *)
Definition solve_iterations (n : Node) (map : GridMap) (points : list scan_point_t)
    (s : Solver) : Solver :=
  Nat.iter (Z.to_nat (m_solver_iterations n)) (solve map points 1) s.

(** "setup distributions" and "solve odometry prediction first". *)
Definition search_first (n : Node) (map : GridMap) (points : list scan_point_t)
    (guess : Solver) : Search :=
  let rel_std_dev := fmax (1 - m_confidence n) 0 in
  let dx := normal_distribution_new (pose_x guess) (m_sample_std_x n * rel_std_dev) in
  let dy := normal_distribution_new (pose_y guess) (m_sample_std_y n * rel_std_dev) in
  let dyaw := normal_distribution_new (pose_yaw guess) (m_sample_std_yaw n * rel_std_dev) in
  let s := solve_iterations n map points guess in
  {| s_solver := s; s_generator := m_generator n;
     dist_x := dx; dist_y := dy; dist_yaw := dyaw;
     best_x := pose_x s; best_y := pose_y s; best_yaw := pose_yaw s;
     best_score := r_norm s |}.

(** "generate new sample". *)
Definition generate_sample (st : Search) : Search :=
  let '(x, dx, g1) := draw (dist_x st) (s_generator st) in
  let '(y, dy, g2) := draw (dist_y st) g1 in
  let '(yaw, dyaw, g3) := draw (dist_yaw st) g2 in
  {| s_solver := set_pose (s_solver st) x y yaw; s_generator := g3;
     dist_x := dx; dist_y := dy; dist_yaw := dyaw;
     best_x := best_x st; best_y := best_y st; best_yaw := best_yaw st;
     best_score := best_score st |}.

(** "solve sample". *)
Definition solve_sample (n : Node) (map : GridMap) (points : list scan_point_t)
    (st : Search) : Search :=
  {| s_solver := solve_iterations n map points (s_solver st);
     s_generator := s_generator st;
     dist_x := dist_x st; dist_y := dist_y st; dist_yaw := dist_yaw st;
     best_x := best_x st; best_y := best_y st; best_yaw := best_yaw st;
     best_score := best_score st |}.

(** [a < b] on doubles. *)
Definition Qlt_bool (a b : Q) : bool := negb (Qle_bool b a).

(** "check if sample is better". *)
Definition check_sample (st : Search) : Search :=
  if Qlt_bool (r_norm (s_solver st)) (best_score st) then
    {| s_solver := s_solver st; s_generator := s_generator st;
       dist_x := dist_x st; dist_y := dist_y st; dist_yaw := dist_yaw st;
       best_x := pose_x (s_solver st); best_y := pose_y (s_solver st);
       best_yaw := pose_yaw (s_solver st);
       best_score := r_norm (s_solver st) |}
  else st.

(** One turn of [for(i < m_sample_rate)]. *)
Definition sample_body (n : Node) (map : GridMap) (points : list scan_point_t)
    (st : Search) : Search :=
  check_sample (solve_sample n map points (generate_sample st)).

(** The search after [k] turns of the sample loop. *)
Definition search_after (k : nat) (n : Node) (map : GridMap)
    (points : list scan_point_t) (guess : Solver) : Search :=
  Nat.iter k (sample_body n map points) (search_first n map points guess).

(** From "setup distributions" to the end of the sample loop. *)
Definition search (n : Node) (map : GridMap) (points : list scan_point_t)
    (guess : Solver) : Search :=
  search_after (Z.to_nat (m_sample_rate n)) n map points guess.

(** "use best sample", "get new pose from solver" and "compute new odom to
    map offset from new pose": the solver with the best pose, and the offset
    it stands for. *)
Definition use_best (st : Search) : Solver :=
  set_pose (s_solver st) (best_x st) (best_y st) (best_yaw st).

Definition corrected_offset (n : Node) (L : Matrix) (st : Search) : Matrix :=
  let s := use_best st in
  let grid_pose_new := translate25 (pose_x s) (pose_y s) ** rotate25_z (pose_yaw s) in
  project (m_grid_to_map n ** grid_pose_new ** inverse L ** column4 0 0 0 1).

(** From "use best sample" to the end of [scan_callback]. *)
Definition scan_update (n : Node) (scan : LaserScan) (L : Matrix) (st : Search)
    : Node * list Output :=
  let s := use_best st in
  let new_offset := corrected_offset n L st in
  let ox := vec_get new_offset 0 * m_update_gain n
            + m_offset_x n * (1 - m_update_gain n) in
  let oy := vec_get new_offset 1 * m_update_gain n
            + m_offset_y n * (1 - m_update_gain n) in
  let oyaw := blend_yaw (m_offset_yaw n) (vec_get new_offset 2) (m_update_gain n) in
  let conf := m_confidence n + (m_max_confidence n - m_confidence n) * (1 # 100) in
  let n' := assign n ox oy oyaw conf (stamp (scan_header scan))
                   (m_grid_to_map n) (m_map n) s (s_generator st) in
  (n', broadcast n' ++ [ROS_INFO (ScanResult (best_score st) (m_confidence n'))]).

Definition scan_callback (n : Node) (tf : TransformListener) (scan : LaserScan)
    : Node * list Output :=
  match scan_prepare n tf scan with
  | Skipped n' out => (n', out)
  | Ready map L points guess => scan_update n scan L (search n map points guess)
  end.

(** ** pose_callback *)

Definition pose_callback (n : Node) (tf : TransformListener)
    (pose : PoseWithCovarianceStamped) : Node * list Output :=
  if negb (String.eqb (frame_id (pose_header pose)) (m_map_frame n)) then
    (n, [ROS_WARN (InvalidPoseEstimateFrame (frame_id (pose_header pose)))])
  else
    let map_pose := poseMsgToTF (pose_pose pose) in
    match tf (m_odom_frame n) (m_base_frame n) Time_zero with
    | None => (n, [ROS_WARN LookupBaseToOdomFailed])
    | Some base_to_odom =>
      let L := convert_transform_25 base_to_odom in
      let new_offset :=
        project (convert_transform_25 map_pose ** inverse L ** column4 0 0 0 1) in
      let n' := set_offset n (vec_get new_offset 0) (vec_get new_offset 1)
                           (vec_get new_offset 2) (stamp (pose_header pose)) in
      let n' := set_confidence n' 0 in
      (n', broadcast n' ++ [ROS_INFO GotNewPoseEstimate])
    end.

(** ** map_callback *)

(** One cell of "convert map to our format (occupancy between 0 and 1)". *)
Definition convert_cell (cell : Z) : float :=
  if (0 <=? cell)%Z then fminf (inject_Z cell / 100) 1 else 0.

(** [ros_map->data[i]]: the cell at [i], or past the end of [data], where
    the source reads without a check, whatever is found there. *)
Definition read_data (ros_map : OccupancyGrid) (i : nat) : Z :=
  match data ros_map !! i with
  | Some cell => cell
  | None => unchecked_read (data ros_map) i
  end.

(** The two loops over [y] and [x]. *)
Definition convert_map (ros_map : OccupancyGrid) (map : GridMap) : GridMap :=
  fold_left (fun map y =>
    fold_left (fun map x =>
      let cell := read_data ros_map (y * gm_size map + x)%nat in
      gm_set map x y (convert_cell cell))
      (seq 0 (gm_size map)) map)
    (seq 0 (gm_size map)) map.

Definition map_callback (n : Node) (ros_map : OccupancyGrid) : Node * list Output :=
  let got := ROS_INFO (GotMap (width (info ros_map)) (height (info ros_map))
                              (resolution (info ros_map))) in
  if negb (width (info ros_map) =? height (info ros_map))%nat then
    (n, [got; ROS_WARN InvalidMapDimensions])
  else
    let map := GridMap_new (width (info ros_map)) (resolution (info ros_map)) in
    let map := convert_map ros_map map in
    let map := Nat.iter (Z.to_nat (m_map_downscale n)) downscale map in
    let map := Nat.iter (Z.to_nat (m_num_smooth n)) smooth_33_1 map in
    let n' := set_map n (convert_transform_25 (poseMsgToTF (origin (info ros_map))))
                        map in
    let n' := set_confidence n' 0 in
    (n', got :: List.map (fun i => ROS_INFO (SmoothIter i))
                    (seq 0 (Z.to_nat (m_num_smooth n)))).

(** ** The state the claims speak of *)

(** The persistent offset with its confidence and time stamp. *)
Record OffsetState := {
  os_x : double;
  os_y : double;
  os_yaw : double;
  os_confidence : double;
  os_timestamp : Time
}.

Definition offset_state (n : Node) : OffsetState :=
  {| os_x := m_offset_x n; os_y := m_offset_y n; os_yaw := m_offset_yaw n;
     os_confidence := m_confidence n; os_timestamp := m_offset_time n |}.

(** The best pose with its score, and the pose with the score a solver
    holds. *)
Definition best_of (st : Search) : double * double * double * double :=
  (best_x st, best_y st, best_yaw st, best_score st).
Definition result_of (s : Solver) : double * double * double * double :=
  (pose_x s, pose_y s, pose_yaw s, r_norm s).

(** Mean and standard deviation of the three distributions of a search. *)
Definition dist_params (st : Search) : list (double * double) :=
  [(nd_mean (dist_x st), nd_stddev (dist_x st));
   (nd_mean (dist_y st), nd_stddev (dist_y st));
   (nd_mean (dist_yaw st), nd_stddev (dist_yaw st))].

(** The pose the next turn of the sample loop starts from. *)
Definition candidate (st : Search) : double * double * double :=
  let s := s_solver (generate_sample st) in (pose_x s, pose_y s, pose_yaw s).

(** The spec's words for a candidate: one draw for x, one for y, one for
    yaw, each from its own normal distribution with the given mean and
    standard deviation, taken in this order from the generator. *)
Definition gaussian_candidate (mean_x mean_y mean_yaw : double)
    (std_x std_y std_yaw : double) (st_x st_y st_yaw : normal_state)
    (g : mt19937) : double * double * double :=
  let '(x, _, g1) := normal_draw mean_x std_x st_x g in
  let '(y, _, g2) := normal_draw mean_y std_y st_y g1 in
  let '(yaw, _, _) := normal_draw mean_yaw std_yaw st_yaw g2 in
  (x, y, yaw).

(** The spec's words for the sample loop.  [count] trials; in each, a
    candidate is drawn from the three normal distributions with the given
    means and standard deviations (x, then y, then yaw, from the one
    generator), the optimizer is run from the candidate, and its result
    replaces the best if its residual norm is strictly lower.  Returned are
    the best, the solver as the last run left it, and the generator. *)
Fixpoint sampled_search (count : nat) (optimize : Solver -> Solver)
    (means stds : double * double * double)
    (states : normal_state * normal_state * normal_state) (g : mt19937)
    (solver : Solver) (best : double * double * double * double)
    : (double * double * double * double) * Solver * mt19937 :=
  match count with
  | O => (best, solver, g)
  | S k =>
      let '(mean_x, mean_y, mean_yaw) := means in
      let '(std_x, std_y, std_yaw) := stds in
      let '(st_x, st_y, st_yaw) := states in
      let '(x, st_x', g1) := normal_draw mean_x std_x st_x g in
      let '(y, st_y', g2) := normal_draw mean_y std_y st_y g1 in
      let '(yaw, st_yaw', g3) := normal_draw mean_yaw std_yaw st_yaw g2 in
      let solved := optimize (set_pose solver x y yaw) in
      let best' :=
        if Qlt_bool (r_norm solved) (snd best) then result_of solved else best in
      sampled_search k optimize means stds (st_x', st_y', st_yaw') g3 solved best'
  end.

(** The offset an external estimate stands for, given the odometry. *)
Definition estimate_offset (pose : PoseWithCovarianceStamped)
    (base_to_odom : tf_Transform) : Matrix :=
  project (convert_transform_25 (poseMsgToTF (pose_pose pose))
           ** inverse (convert_transform_25 base_to_odom)
           ** column4 0 0 0 1).

(** The grid operations of the environment are those the spec describes. *)
Definition grid_ops_as_spec : Prop :=
  (forall g, downscale g = GridMap_downscale g)
  /\ (forall g, smooth_33_1 g = GridMap_smooth_33_1 g).

(** The valid measurements of a scan, those with a range > 0, and the
    ranges the loop makes points of, those for which [<= 0] fails. *)
Definition valid_ranges (scan : LaserScan) : list float32 :=
  filter positive (ranges scan).

Definition point_ranges (scan : LaserScan) : list float32 :=
  filter (fun r => le_zero r = false) (ranges scan).

(** The transforms among what a callback sent out. *)
Definition transforms_sent (out : list Output) : list Output :=
  List.filter is_sendTransform out.

(** What the subscriptions deliver, and the node run over a sequence of
    deliveries (the mutex makes the callbacks run one after the other). *)
Inductive Message :=
| OnScan (tf : TransformListener) (scan : LaserScan)
| OnPose (tf : TransformListener) (pose : PoseWithCovarianceStamped)
| OnMap (ros_map : OccupancyGrid).

Definition deliver (n : Node) (m : Message) : Node * list Output :=
  match m with
  | OnScan tf scan => scan_callback n tf scan
  | OnPose tf pose => pose_callback n tf pose
  | OnMap ros_map => map_callback n ros_map
  end.

Definition run (n : Node) (ms : list Message) : Node :=
  fold_left (fun n m => fst (deliver n m)) ms n.

(** ** More of the node's state and output, for the properties below *)

(** The parameters the constructor reads, as the node holds them. *)
Definition config (n : Node) :=
  (m_broadcast_tf n, m_base_frame n, m_odom_frame n, m_map_frame n,
   m_map_downscale n, m_num_smooth n, m_solver_iterations n, m_sample_rate n,
   m_update_gain n, m_confidence_gain n, m_max_confidence n,
   m_sample_std_x n, m_sample_std_y n, m_sample_std_yaw n).

(** The message [broadcast] composes from the node. *)
Definition offset_transform (n : Node) : TransformStamped :=
  {| ts_stamp := m_offset_time n;
     ts_frame_id := m_map_frame n;
     ts_child_frame_id := m_odom_frame n;
     ts_translation := {| p_x := m_offset_x n; p_y := m_offset_y n; p_z := 0 |};
     ts_rotation := createQuaternionFromYaw (m_offset_yaw n) |}.

(** Everything sent out over a sequence of deliveries, in order. *)
Fixpoint trace (n : Node) (ms : list Message) : list Output :=
  match ms with
  | [] => []
  | m :: rest => snd (deliver n m) ++ trace (fst (deliver n m)) rest
  end.

Definition is_scan (m : Message) : bool :=
  match m with OnScan _ _ => true | _ => false end.

(** A sequence of scans each of which gets to the search. *)
Fixpoint completes (n : Node) (ms : list Message) : bool :=
  match ms with
  | [] => true
  | m :: rest =>
      match m with
      | OnScan tf scan => is_ready (scan_prepare n tf scan)
      | _ => false
      end && completes (fst (deliver n m)) rest
  end.

(** The solver after the sample of turn [j] of the sample loop is solved. *)
Definition tried (j : nat) (n : Node) (map : GridMap)
    (points : list scan_point_t) (guess : Solver) : Solver :=
  s_solver (solve_sample n map points
              (generate_sample (search_after j n map points guess))).

(** The cells of a converted map, row by row, written as the two loops
    leave them. *)
Definition converted_cells (ros_map : OccupancyGrid) (size : nat)
    : list (list float) :=
  List.map (fun y =>
    List.map (fun x => convert_cell (data ros_map !!! (y * size + x)%nat))
             (seq 0 size))
    (seq 0 size).

End Node.

(** ** A concrete environment to run the node in

    Stand-ins for what the sources do not define, chosen so that the node
    computes: Taylor polynomials for cosine and sine, the rigid inverse of a
    planar transform, a solver step that pulls the pose toward the origin by
    its gain and scores the squared distance to the point (1, 0), block
    averages for the grid, rotations about z, and a linear congruential
    generator.  Fractions are kept in lowest terms. *)
Module Standin.

Definition cos (a : double) : double :=
  let a := Qred a in Qred (1 - a * a / 2 + a * a * a * a / 24).
Definition sin (a : double) : double :=
  let a := Qred a in Qred (a - a * a * a / 6 + a * a * a * a * a / 120).

Definition inverse (m : Matrix) : Matrix :=
  let c := mat_get m 0 0 in
  let s := mat_get m 1 0 in
  let x := mat_get m 0 3 in
  let y := mat_get m 1 3 in
  [[c; s; 0; Qred (- (c * x + s * y))];
   [- s; c; 0; Qred (- (c * y - s * x))];
   [0; 0; 1; Qred (- mat_get m 2 3)];
   [0; 0; 0; 1]].

Definition project (v : Matrix) : Matrix := map (map Qred) (take 3 v).

Definition Solver_default : Solver :=
  {| pose_x := 0; pose_y := 0; pose_yaw := 0; gain := 0; damping := 0;
     r_norm := 0 |}.

Definition solve (map : GridMap) (points : list scan_point_t) (w : float)
    (s : Solver) : Solver :=
  let x := Qred (pose_x s - gain s * pose_x s) in
  let y := Qred (pose_y s - gain s * pose_y s) in
  {| pose_x := x; pose_y := y; pose_yaw := pose_yaw s;
     gain := gain s; damping := damping s;
     r_norm := Qred ((x - 1) * (x - 1) + y * y) |}.

Definition downscale (g : GridMap) : GridMap :=
  let half := (gm_size g / 2)%nat in
  {| gm_size := half; gm_scale := 2 * gm_scale g;
     gm_cells :=
       map (fun y => map (fun x =>
              (gm_get g (2 * x) (2 * y) + gm_get g (2 * x + 1) (2 * y)
               + gm_get g (2 * x) (2 * y + 1)
               + gm_get g (2 * x + 1) (2 * y + 1)) / 4)
            (seq 0 half)) (seq 0 half) |}.

Definition smooth_33_1 (g : GridMap) : GridMap :=
  {| gm_size := gm_size g; gm_scale := gm_scale g;
     gm_cells :=
       map (fun y => map (fun x =>
              Qred ((gm_get g (x - 1) y + gm_get g x y + gm_get g (x + 1) y) / 3))
            (seq 0 (gm_size g))) (seq 0 (gm_size g)) |}.

Definition getRotation (t : tf_Transform) : Quaternion :=
  {| q_x := 0; q_y := 0; q_z := mat_get (getBasis t) 1 0 / 2; q_w := 1 |}.

Definition getYaw (q : Quaternion) : double := 2 * q_z q * q_w q.

Definition poseMsgToTF (p : Pose) : tf_Transform :=
  let q := orientation p in
  {| getBasis :=
       [[1 - 2 * (q_y q * q_y q + q_z q * q_z q);
         2 * (q_x q * q_y q - q_z q * q_w q);
         2 * (q_x q * q_z q + q_y q * q_w q)];
        [2 * (q_x q * q_y q + q_z q * q_w q);
         1 - 2 * (q_x q * q_x q + q_z q * q_z q);
         2 * (q_y q * q_z q - q_x q * q_w q)];
        [2 * (q_x q * q_z q - q_y q * q_w q);
         2 * (q_y q * q_z q + q_x q * q_w q);
         1 - 2 * (q_x q * q_x q + q_y q * q_y q)]];
     getOrigin := [p_x (position p); p_y (position p); p_z (position p)] |}.

Definition createQuaternionFromYaw (yaw : double) : Quaternion :=
  {| q_x := 0; q_y := 0; q_z := sin (yaw / 2); q_w := cos (yaw / 2) |}.

Definition lcg (g : Z) : Z := ((g * 1103515245 + 12345) mod 2147483648)%Z.

Definition normal_draw (mean stddev : double) (st : unit) (g : Z)
    : double * unit * Z :=
  (Qred (mean + stddev * ((lcg g mod 201 - 100)%Z # 100)), tt, lcg g).

Definition nonfinite_point (S : Matrix) (angle : double) (r : float32)
    : float32 * float32 := (NaN, NaN).

Definition unchecked_read (data : list Z) (i : nat) : Z := 0%Z.

#[export] Instance extern : Extern :=
  Build_Extern cos sin inverse project Solver_default solve downscale
    smooth_33_1 getRotation getYaw poseMsgToTF createQuaternionFromYaw
    Z 5489%Z unit tt normal_draw nonfinite_point unchecked_read.

(** The same environment with the grid operations as the spec describes
    them. *)
Definition extern_spec_grid : Extern :=
  Build_Extern cos sin inverse project Solver_default solve GridMap_downscale
    GridMap_smooth_33_1 getRotation getYaw poseMsgToTF createQuaternionFromYaw
    Z 5489%Z unit tt normal_draw nonfinite_point unchecked_read.

(** A parameter server that sets [confidence_gain] to 0.5 and nothing else. *)
Definition nh_gain_half : NodeHandle :=
  {| get_bool := fun _ => None;
     get_string := fun _ => None;
     get_int := fun _ => None;
     get_double := fun name =>
       if String.eqb name "confidence_gain" then Some (1 # 2) else None |}.

(** The empty parameter server: every parameter takes its default. *)
Definition nh_default : NodeHandle :=
  {| get_bool := fun _ => None;
     get_string := fun _ => None;
     get_int := fun _ => None;
     get_double := fun _ => None |}.

Definition identity_pose : Pose :=
  {| position := {| p_x := 0; p_y := 0; p_z := 0 |};
     orientation := {| q_x := 0; q_y := 0; q_z := 0; q_w := 1 |} |}.

Definition identity_transform : tf_Transform :=
  {| getBasis := [[1; 0; 0]; [0; 1; 0]; [0; 0; 1]]; getOrigin := [0; 0; 0] |}.

(** A tf buffer that knows every transform, and one that knows none. *)
Definition tf_identity : TransformListener := fun _ _ _ => Some identity_transform.
Definition tf_empty : TransformListener := fun _ _ _ => None.

(** A 4 x 4 map: unknown, free, half, occupied and above-range cells. *)
Definition map_4x4 : OccupancyGrid :=
  {| info := {| resolution := 5 # 100; width := 4; height := 4;
                origin := identity_pose |};
     data := [ -1;  0; 50; 100;
              127;  0;  0; 100;
                0;  0;  0; 100;
                0;  0;  0; 100 ]%Z |}.

(** A 50 x 60 map, all free. *)
Definition map_50x60 : OccupancyGrid :=
  {| info := {| resolution := 5 # 100; width := 50; height := 60;
                origin := identity_pose |};
     data := replicate 3000 0%Z |}.

Definition scan_header_at (t : Z) : Header :=
  {| stamp := {| sec := t; nsec := 0 |}; frame_id := "laser" |}.

(** Twelve returns at 2 m. *)
Definition scan_12 : LaserScan :=
  {| scan_header := scan_header_at 7; angle_min := 0;
     angle_increment := 1 # 10; ranges := replicate 12 (Finite 2) |}.

(** Nine returns and three dropped measurements. *)
Definition scan_9 : LaserScan :=
  {| scan_header := scan_header_at 8; angle_min := 0;
     angle_increment := 1 # 10;
     ranges := List.map Finite [0; 2; 2; 2; -1; 2; 2; 2; 0; 2; 2; 2] |}.

(** Nine returns and three readings that are not a number. *)
Definition scan_9_nan : LaserScan :=
  {| scan_header := scan_header_at 8; angle_min := 0;
     angle_increment := 1 # 10;
     ranges := [NaN; Finite 2; Finite 2; Finite 2; NaN; Finite 2; Finite 2;
                Finite 2; NaN; Finite 2; Finite 2; Finite 2] |}.

Definition estimate (frame : string) : PoseWithCovarianceStamped :=
  {| pose_header := {| stamp := {| sec := 9; nsec := 0 |}; frame_id := frame |};
     pose_pose := {| position := {| p_x := 3; p_y := 4; p_z := 0 |};
                     orientation := {| q_x := 0; q_y := 0; q_z := 0; q_w := 1 |} |} |}.

(** The node after construction, a map, and one scan. *)
Definition node_with_map (nh : NodeHandle) : Node :=
  fst (map_callback (NeoLocalizationNode nh) map_4x4).
Definition node_after_scan (nh : NodeHandle) : Node :=
  fst (scan_callback (node_with_map nh) tf_identity scan_12).

(** The node with the map and a given offset yaw, as an external estimate
    with that yaw leaves it, and a search that ended at a given yaw. *)
Definition node_yaw (yaw : double) : Node :=
  let n := node_with_map nh_default in
  assign n 0 0 yaw 0 (m_offset_time n) (m_grid_to_map n) (m_map n) (m_solver n)
         (m_generator n).

Definition search_at (yaw : double) : Search :=
  {| s_solver := Solver_default; s_generator := 5489%Z;
     dist_x := normal_distribution_new 0 (1 # 2);
     dist_y := normal_distribution_new 0 (1 # 2);
     dist_yaw := normal_distribution_new yaw (1 # 2);
     best_x := 0; best_y := 0; best_yaw := yaw; best_score := 1 |}.

Definition L_identity : Matrix := convert_transform_25 identity_transform.

(** Parameter servers for the further runs: two solver iterations and two
    samples; the same without broadcasting; without samples; without
    smoothing. *)
Definition nh_with (broadcast_tf : bool) (ints : list (string * Z)) : NodeHandle :=
  {| get_bool := fun name =>
       if String.eqb name "broadcast_tf" then Some broadcast_tf else None;
     get_string := fun _ => None;
     get_int := fun name =>
       match List.find (fun kv => String.eqb (fst kv) name) ints with
       | Some kv => Some (snd kv)
       | None => None
       end;
     get_double := fun _ => None |}.

Definition nh_light : NodeHandle :=
  nh_with true [("solver_iterations"%string, 2%Z); ("sample_rate"%string, 2%Z)].
Definition nh_quiet : NodeHandle :=
  nh_with false [("solver_iterations"%string, 2%Z); ("sample_rate"%string, 2%Z)].
Definition nh_no_samples : NodeHandle :=
  nh_with true [("solver_iterations"%string, 2%Z); ("sample_rate"%string, 0%Z)].
Definition nh_plain : NodeHandle :=
  nh_with true [("num_smooth"%string, 0%Z)].

(** Two solver iterations, two samples, and [update_gain] 0. *)
Definition nh_frozen : NodeHandle :=
  {| get_bool := get_bool nh_light;
     get_string := get_string nh_light;
     get_int := get_int nh_light;
     get_double := fun name =>
       if String.eqb name "update_gain" then Some 0 else None |}.

(** The grid a node holds. *)
Definition grid_of (n : Node) : GridMap :=
  match m_map n with Some g => g | None => GridMap_new 0 0 end.

(** What [scan_prepare] hands to the search for [scan_12], with every
    transform the identity. *)
Definition points_12 : list scan_point_t :=
  scan_points (convert_transform_3 identity_transform) scan_12 0 (ranges scan_12).

Definition guess_of (n : Node) : Solver :=
  set_pose (m_solver n)
    (vec_get (odometry_prediction n L_identity) 0)
    (vec_get (odometry_prediction n L_identity) 1)
    (vec_get (odometry_prediction n L_identity) 2).

(** A second estimate, and sequences of deliveries. *)
Definition estimate_2 : PoseWithCovarianceStamped :=
  {| pose_header := {| stamp := {| sec := 11; nsec := 0 |}; frame_id := "map" |};
     pose_pose := {| position := {| p_x := -1; p_y := 2; p_z := 0 |};
                     orientation := {| q_x := 0; q_y := 0; q_z := 0; q_w := 1 |} |} |}.

Definition two_scans : list Message :=
  [OnScan tf_identity scan_12; OnScan tf_identity scan_12].

Definition map_scan_pose : list Message :=
  [OnMap map_4x4; OnScan tf_identity scan_12; OnPose tf_identity (estimate "map")].

End Standin.

(** * Properties *)

Example mat_mul_e4 :
  [[1; 0; 0; 5]; [0; 1; 0; 7]; [0; 0; 1; 0]; [0; 0; 0; 1]] ** [[0]; [0]; [0]; [1]]
  = [[5]; [7]; [0]; [1]].
Proof. vm_compute. reflexivity. Qed.

(** ** Comparisons and <cmath> *)

Lemma Qle_bool_false (a b : Q) : Qle_bool a b = false -> b < a.
Proof.
  intros H. apply Qnot_le_lt. intros Hle.
  apply Qle_bool_iff in Hle. congruence.
Qed.

Lemma Qlt_bool_true (a b : Q) : Qlt_bool a b = true <-> a < b.
Proof.
  unfold Qlt_bool. split.
  - intros H. apply Qle_bool_false. now destruct (Qle_bool b a).
  - intros H. destruct (Qle_bool b a) eqn:Hba; [|reflexivity].
    apply Qle_bool_iff in Hba. exfalso. exact (Qlt_not_le _ _ H Hba).
Qed.

(** [trunc] cuts off a fraction of the sign of its argument. *)
Lemma trunc_rem (a : Q) :
  a == inject_Z (trunc a) + (Z.rem (Qnum a) (Zpos (Qden a)) # Qden a).
Proof.
  destruct a as [n d]. unfold trunc, Qeq. cbn [Qnum Qden Qplus inject_Z].
  pose proof (Z.quot_rem' n (Zpos d)) as H.
  rewrite Pos.mul_1_l. nia.
Qed.

Lemma trunc_frac (a : Q) :
  exists f : Q,
    a == inject_Z (trunc a) + f /\ -1 < f /\ f < 1
    /\ (0 <= a -> 0 <= f) /\ (a <= 0 -> f <= 0).
Proof.
  exists (Z.rem (Qnum a) (Zpos (Qden a)) # Qden a).
  split; [apply trunc_rem|].
  pose proof (Z.rem_bound_abs (Qnum a) (Zpos (Qden a)) ltac:(lia)) as Habs.
  unfold Qlt, Qle; cbn [Qnum Qden]. repeat split.
  - lia.
  - lia.
  - intros Ha. pose proof (Z.rem_nonneg (Qnum a) (Zpos (Qden a)) ltac:(lia)). lia.
  - intros Ha. pose proof (Z.rem_nonpos (Qnum a) (Zpos (Qden a)) ltac:(lia)). lia.
Qed.

(** [fmod x y], for a positive [y], is a fraction of [y] of the sign of [x]. *)
Lemma fmod_frac (x y : Q) :
  0 < y ->
  exists f : Q,
    fmod x y == f * y /\ -1 < f /\ f < 1
    /\ (0 <= x -> 0 <= f) /\ (x <= 0 -> f <= 0).
Proof.
  intros Hy.
  destruct (trunc_frac (x / y)) as (f & Hq & Hlo & Hhi & Hpos & Hneg).
  exists f. repeat split; try assumption.
  - unfold fmod. set (t := trunc (x / y)) in *.
    assert (Hx : x == (inject_Z t + f) * y).
    { rewrite <- Hq. field. lra. }
    lra.
  - intros Hx. apply Hpos. apply Qle_shift_div_l; lra.
  - intros Hx. apply Hneg. apply Qle_shift_div_r; lra.
Qed.

Lemma M_PI_pos : 0 < M_PI.
Proof. reflexivity. Qed.

(** ** angles *)

Lemma normalize_angle_range (a : Q) :
  - M_PI < angles.normalize_angle a /\ angles.normalize_angle a <= M_PI.
Proof.
  unfold angles.normalize_angle.
  pose proof M_PI_pos as Hpi.
  destruct (fmod_frac (a + M_PI) (2 * M_PI)) as (f & Hf & Hlo & Hhi & _); [lra|].
  destruct (Qle_bool (fmod (a + M_PI) (2 * M_PI)) 0) eqn:Hle.
  - apply Qle_bool_iff in Hle. split; [|lra].
    rewrite Hf. nra.
  - apply Qle_bool_false in Hle. split; [lra|].
    rewrite Hf. nra.
Qed.

(** The normalised angle is the angle, up to whole turns. *)
Lemma normalize_angle_turns (a : Q) :
  exists k : Z, angles.normalize_angle a == a + inject_Z k * (2 * M_PI).
Proof.
  unfold angles.normalize_angle, fmod.
  set (t := trunc ((a + M_PI) / (2 * M_PI))).
  destruct (Qle_bool _ 0).
  - exists (1 - t)%Z. unfold Z.sub.
    rewrite inject_Z_plus, inject_Z_opp. ring.
  - exists (- t)%Z. rewrite inject_Z_opp. ring.
Qed.

(** An angle in the half-open turn around 0 is the smallest, in absolute
    value, among those a whole number of turns away. *)
Lemma half_turn_shortest (d : Q) (m : Z) :
  - M_PI < d -> d <= M_PI -> Qabs d <= Qabs (d + inject_Z m * (2 * M_PI)).
Proof.
  intros Hlo Hhi. pose proof M_PI_pos as Hpi.
  assert (Hd : Qabs d <= M_PI) by (apply Qabs_Qle_condition; lra).
  destruct (Z.eq_dec m 0%Z) as [-> | Hm].
  - assert (H0 : d + inject_Z 0 * (2 * M_PI) == d) by ring.
    rewrite H0. apply Qle_refl.
  - destruct (Z_lt_le_dec m 0%Z) as [Hneg | Hpos].
    + assert (Hm1 : inject_Z m <= -1).
      { change (-1) with (inject_Z (-1)). rewrite <- Zle_Qle. lia. }
      apply Qle_trans with M_PI; [exact Hd|].
      rewrite <- Qabs_opp. eapply Qle_trans; [|apply Qle_Qabs]. nra.
    + assert (Hm1 : 1 <= inject_Z m).
      { change 1 with (inject_Z 1). rewrite <- Zle_Qle. lia. }
      apply Qle_trans with M_PI; [exact Hd|].
      eapply Qle_trans; [|apply Qle_Qabs]. nra.
Qed.

(** ** GridMap *)

Section Grid.

Context {E : Extern}.

Lemma GridMap_new_ok size scale : grid_ok (GridMap_new size scale).
Proof.
  split; cbn [GridMap_new gm_cells gm_size].
  - apply length_replicate.
  - intros y Hy. rewrite lookup_total_replicate_2 by exact Hy.
    apply length_replicate.
Qed.

Lemma gm_set_ok g x y v : grid_ok g -> grid_ok (gm_set g x y v).
Proof.
  intros [Hrows Hcols]. split; cbn [gm_set gm_cells gm_size].
  - rewrite length_insert. exact Hrows.
  - intros y' Hy'. destruct (decide (y = y')) as [<- | Hne].
    + rewrite list_lookup_total_insert_eq by lia.
      rewrite length_insert. apply Hcols, Hy'.
    + rewrite list_lookup_total_insert_ne by exact Hne. apply Hcols, Hy'.
Qed.

Lemma gm_get_set_eq g x y v :
  grid_ok g -> (x < gm_size g)%nat -> (y < gm_size g)%nat ->
  gm_get (gm_set g x y v) x y = v.
Proof.
  intros [Hrows Hcols] Hx Hy. unfold gm_get, gm_set. cbn [gm_cells].
  rewrite list_lookup_total_insert_eq by lia.
  apply list_lookup_total_insert_eq. rewrite Hcols by exact Hy. exact Hx.
Qed.

Lemma gm_get_set_ne g x y v x' y' :
  (x, y) <> (x', y') -> gm_get (gm_set g x y v) x' y' = gm_get g x' y'.
Proof.
  intros Hne. unfold gm_get, gm_set. cbn [gm_cells].
  destruct (decide (y = y')) as [<- | Hy].
  - destruct (decide (y < length (gm_cells g))%nat) as [Hlt | Hge].
    + rewrite list_lookup_total_insert_eq by exact Hlt.
      apply list_lookup_total_insert_ne. congruence.
    + rewrite list_insert_ge by lia. reflexivity.
  - rewrite list_lookup_total_insert_ne by exact Hy. reflexivity.
Qed.

(** The inner loop, [k] cells into row [y]: these cells hold the converted
    data, every other cell is as before. *)
Lemma convert_row_cells ros_map y k : forall g,
  grid_ok g -> (y < gm_size g)%nat -> (k <= gm_size g)%nat ->
  let row :=
    fold_left (fun map x =>
      gm_set map x y (convert_cell (read_data ros_map (y * gm_size map + x)%nat)))
      (seq 0 k) g in
  grid_ok row /\ gm_size row = gm_size g
  /\ forall x' y',
       gm_get row x' y'
       = if decide (y' = y /\ (x' < k)%nat)
         then convert_cell (read_data ros_map (y * gm_size g + x')%nat)
         else gm_get g x' y'.
Proof.
  induction k as [|k IH]; intros g Hok Hy Hk; cbn zeta.
  - cbn [seq fold_left]. split; [exact Hok|]. split; [reflexivity|].
    intros x' y'. destruct (decide _) as [[_ Hlt]|_]; [lia | reflexivity].
  - rewrite seq_S, fold_left_app. cbn [fold_left Nat.add].
    destruct (IH g Hok Hy ltac:(lia)) as (Hok' & Hsize & Hget).
    set (row := fold_left _ (seq 0 k) g) in *.
    split; [apply gm_set_ok, Hok'|]. split; [exact Hsize|].
    intros x' y'. rewrite Hsize.
    destruct (decide ((k, y) = (x', y'))) as [Heq | Hne].
    + injection Heq as <- <-.
      rewrite gm_get_set_eq by (rewrite ?Hsize; auto with lia).
      destruct (decide _) as [_|Hn]; [reflexivity|]. exfalso. apply Hn. lia.
    + rewrite gm_get_set_ne by exact Hne. rewrite Hget.
      repeat case_decide; destruct_and?; subst; try reflexivity.
      * exfalso. lia.
      * exfalso. assert (x' = k) by lia. congruence.
Qed.

(** The outer loop, [j] rows into the grid. *)
Lemma convert_rows_cells ros_map j : forall g,
  grid_ok g -> (j <= gm_size g)%nat ->
  let rows :=
    fold_left (fun map y =>
      fold_left (fun map x =>
        gm_set map x y (convert_cell (read_data ros_map (y * gm_size map + x)%nat)))
        (seq 0 (gm_size map)) map)
      (seq 0 j) g in
  grid_ok rows /\ gm_size rows = gm_size g
  /\ forall x' y',
       gm_get rows x' y'
       = if decide ((y' < j)%nat /\ (x' < gm_size g)%nat)
         then convert_cell (read_data ros_map (y' * gm_size g + x')%nat)
         else gm_get g x' y'.
Proof.
  induction j as [|j IH]; intros g Hok Hj; cbn zeta.
  - cbn [seq fold_left]. split; [exact Hok|]. split; [reflexivity|].
    intros x' y'. destruct (decide _) as [[Hlt _]|_]; [lia | reflexivity].
  - rewrite seq_S, fold_left_app. cbn [fold_left Nat.add].
    destruct (IH g Hok ltac:(lia)) as (Hok' & Hsize & Hget).
    set (rows := fold_left _ (seq 0 j) g) in *.
    destruct (convert_row_cells ros_map j (gm_size rows) rows Hok'
                ltac:(lia) ltac:(lia)) as (Hok2 & Hsize2 & Hget2).
    split; [exact Hok2|]. split; [congruence|].
    intros x' y'. rewrite Hget2, Hget, Hsize.
    repeat case_decide; destruct_and?; subst;
      first [reflexivity | exfalso; lia].
Qed.

End Grid.

(** What one cell is converted to. *)
Lemma convert_cell_cases (cell : Z) :
  0 <= convert_cell cell <= 1
  /\ ((0 <= cell <= 100)%Z -> convert_cell cell = inject_Z cell / 100)
  /\ ((100 < cell)%Z -> convert_cell cell = 1)
  /\ ((cell < 0)%Z -> convert_cell cell = 0).
Proof.
  unfold convert_cell, fminf.
  assert (Hdiv : inject_Z cell / 100 == (cell # 100)).
  { unfold Qeq, Qdiv, Qmult, Qinv, inject_Z. cbn. lia. }
  destruct (Z.leb_spec 0 cell) as [Hpos | Hneg].
  - destruct (Qle_bool (inject_Z cell / 100) 1) eqn:Hle.
    + apply Qle_bool_iff in Hle. repeat split; try reflexivity; try lia.
      * rewrite Hdiv. unfold Qle; cbn. lia.
      * exact Hle.
      * intros Hbig. rewrite Hdiv in Hle. unfold Qle in Hle; cbn in Hle. lia.
    + apply Qle_bool_false in Hle. repeat split; try reflexivity; try lia; try lra.
      intros Hsmall. rewrite Hdiv in Hle. unfold Qlt in Hle; cbn in Hle. lia.
  - repeat split; try reflexivity; try lra; lia.
Qed.

Lemma nth_map_seq {B} (f : nat -> B) (n i : nat) (d : B) :
  (i < n)%nat -> nth i (List.map f (seq 0 n)) d = f i.
Proof.
  intros Hi.
  rewrite (nth_indep (List.map f (seq 0 n)) d (f 0%nat))
    by (rewrite List.length_map, List.length_seq; exact Hi).
  rewrite (List.map_nth f), List.seq_nth by exact Hi. reflexivity.
Qed.

Lemma lookup_total_map_seq {B} `{Inhabited B} (f : nat -> B) (n i : nat) :
  (i < n)%nat -> List.map f (seq 0 n) !!! i = f i.
Proof.
  intros Hi. rewrite list_lookup_total_alt, <- nth_lookup.
  rewrite (nth_indep _ inhabitant (f 0%nat))
    by (rewrite List.length_map, List.length_seq; exact Hi).
  rewrite (List.map_nth f), List.seq_nth by exact Hi. reflexivity.
Qed.

Lemma clamp_in_grid (i : Z) (size : nat) :
  (0 < size)%nat -> (clamp i size < size)%nat.
Proof. unfold clamp. lia. Qed.

(** The grid operations as the spec describes them are averages, and keep
    likelihoods likelihoods. *)
Lemma GridMap_downscale_in_unit g : in_unit g -> in_unit (GridMap_downscale g).
Proof.
  intros Hg x y Hx Hy. cbn [GridMap_downscale gm_size] in Hx, Hy.
  assert (Hv : gm_get (GridMap_downscale g) x y
               = (gm_get g (2 * x) (2 * y) + gm_get g (2 * x + 1) (2 * y)
                  + gm_get g (2 * x) (2 * y + 1)
                  + gm_get g (2 * x + 1) (2 * y + 1)) / 4).
  { unfold gm_get at 1. cbn [GridMap_downscale gm_cells].
    rewrite lookup_total_map_seq by exact Hy.
    rewrite lookup_total_map_seq by exact Hx. reflexivity. }
  rewrite Hv.
  assert (H2 : (2 * (gm_size g / 2) <= gm_size g)%nat)
    by (apply Nat.Div0.mul_div_le).
  pose proof (Hg (2 * x) (2 * y) ltac:(lia) ltac:(lia))%nat.
  pose proof (Hg (2 * x + 1) (2 * y) ltac:(lia) ltac:(lia))%nat.
  pose proof (Hg (2 * x) (2 * y + 1) ltac:(lia) ltac:(lia))%nat.
  pose proof (Hg (2 * x + 1) (2 * y + 1) ltac:(lia) ltac:(lia))%nat.
  split.
  - apply Qle_shift_div_l; lra.
  - apply Qle_shift_div_r; lra.
Qed.

Lemma GridMap_smooth_33_1_in_unit g :
  in_unit g -> in_unit (GridMap_smooth_33_1 g).
Proof.
  intros Hg x y Hx Hy. cbn [GridMap_smooth_33_1 gm_size] in Hx, Hy.
  assert (Hv : gm_get (GridMap_smooth_33_1 g) x y
               = nth x (nth y (gm_cells (GridMap_smooth_33_1 g)) []) 0).
  { unfold gm_get. rewrite !list_lookup_total_alt, <- !nth_lookup. reflexivity. }
  rewrite Hv. cbn [GridMap_smooth_33_1 gm_cells].
  rewrite nth_map_seq by exact Hy. rewrite nth_map_seq by exact Hx.
  assert (Hc : forall X Y, 0 <= gm_get_clamped g X Y <= 1).
  { intros X Y. apply Hg; apply clamp_in_grid; lia. }
  cbv zeta.
  pose proof (Hc (Z.of_nat x - 1) (Z.of_nat y - 1))%Z.
  pose proof (Hc (Z.of_nat x) (Z.of_nat y - 1))%Z.
  pose proof (Hc (Z.of_nat x + 1) (Z.of_nat y - 1))%Z.
  pose proof (Hc (Z.of_nat x - 1) (Z.of_nat y))%Z.
  pose proof (Hc (Z.of_nat x) (Z.of_nat y))%Z.
  pose proof (Hc (Z.of_nat x + 1) (Z.of_nat y))%Z.
  pose proof (Hc (Z.of_nat x - 1) (Z.of_nat y + 1))%Z.
  pose proof (Hc (Z.of_nat x) (Z.of_nat y + 1))%Z.
  pose proof (Hc (Z.of_nat x + 1) (Z.of_nat y + 1))%Z.
  split.
  - apply Qle_shift_div_l; lra.
  - apply Qle_shift_div_r; lra.
Qed.

Lemma iter_in_unit (f : GridMap -> GridMap) (k : nat) (g : GridMap) :
  (forall g, in_unit g -> in_unit (f g)) -> in_unit g -> in_unit (Nat.iter k f g).
Proof.
  intros Hf Hg. induction k as [|k IH]; [exact Hg|]. cbn [Nat.iter]. apply Hf, IH.
Qed.

(** The ranges the loop makes points of are the positive ones and NaN. *)
Lemma le_zero_false (r : float32) :
  le_zero r = false <-> positive r \/ r = NaN.
Proof.
  destruct r as [q| | |]; cbn [le_zero positive].
  - split.
    + intros H. left. apply Qle_bool_false, H.
    + intros [H | H]; [|discriminate].
      destruct (Qle_bool q 0) eqn:Hq; [|reflexivity].
      apply Qle_bool_iff in Hq. exfalso. exact (Qlt_not_le _ _ H Hq).
  - split; [intros _; left; exact I | reflexivity].
  - split; [discriminate | intros [[] | H]; discriminate].
  - split; [intros _; right; reflexivity | reflexivity].
Qed.

Lemma filter_no_nan (rs : list float32) :
  Forall (fun r => r <> NaN) rs ->
  filter (fun r => le_zero r = false) rs = filter positive rs.
Proof.
  induction 1 as [|r rest Hr _ IH]; [reflexivity|].
  rewrite !filter_cons, IH.
  destruct (decide (le_zero r = false)) as [Hle | Hle];
    destruct (decide (positive r)) as [Hpos | Hpos]; try reflexivity.
  - apply le_zero_false in Hle as [Hp | Hn]; contradiction.
  - exfalso. apply Hle, le_zero_false. left. exact Hpos.
Qed.

Lemma filter_positive_le (rs : list float32) :
  (length (filter positive rs)
   <= length (filter (fun r => le_zero r = false) rs))%nat.
Proof.
  induction rs as [|r rest IH]; [reflexivity|].
  rewrite !filter_cons.
  destruct (decide (positive r)) as [Hpos | Hpos].
  - destruct (decide (le_zero r = false)) as [_ | Hle].
    + cbn [length]. lia.
    + exfalso. apply Hle, le_zero_false. left. exact Hpos.
  - destruct (decide (le_zero r = false)); cbn [length]; lia.
Qed.

Section Properties.

Context {E : Extern}.

(** ** The members a callback never assigns *)

Lemma scan_callback_max_confidence n tf scan :
  m_max_confidence (fst (scan_callback n tf scan)) = m_max_confidence n.
Proof.
  unfold scan_callback, scan_prepare.
  destruct (m_map n); [|reflexivity].
  destruct (tf _ _ _); [|reflexivity].
  destruct (tf _ _ _); [|reflexivity].
  destruct (_ <? _)%nat; reflexivity.
Qed.

Lemma pose_callback_max_confidence n tf pose :
  m_max_confidence (fst (pose_callback n tf pose)) = m_max_confidence n.
Proof.
  unfold pose_callback.
  destruct (negb _); [reflexivity|].
  destruct (tf _ _ _); reflexivity.
Qed.

Lemma map_callback_max_confidence n ros_map :
  m_max_confidence (fst (map_callback n ros_map)) = m_max_confidence n.
Proof.
  unfold map_callback. destruct (negb _); reflexivity.
Qed.

(** ** The scan cycle *)

(** The points built from a scan are as many as the ranges for which
    [<= 0] fails. *)
Lemma scan_points_length S scan i rs :
  length (scan_points S scan i rs)
  = length (filter (fun r => le_zero r = false) rs).
Proof.
  revert i. induction rs as [|r rest IH]; intros i; [reflexivity|].
  cbn [scan_points]. rewrite filter_cons.
  destruct (le_zero r) eqn:Hr.
  - destruct (decide (true = false)) as [Hf|_]; [discriminate | apply IH].
  - destruct (decide (false = false)) as [_|Hn]; [|contradiction].
    cbn [length]. f_equal. apply IH.
Qed.

(** A cycle that gets to the end of the callback changes the confidence by
    one hundredth of what is missing to the ceiling. *)
Lemma scan_update_confidence n scan L st :
  m_confidence (fst (scan_update n scan L st))
  = m_confidence n + (m_max_confidence n - m_confidence n) * (1 # 100).
Proof. reflexivity. Qed.

Lemma scan_callback_confidence n tf scan :
  m_confidence (fst (scan_callback n tf scan)) = m_confidence n
  \/ m_confidence (fst (scan_callback n tf scan))
     = m_confidence n + (m_max_confidence n - m_confidence n) * (1 # 100).
Proof.
  unfold scan_callback. destruct (scan_prepare n tf scan) as [n' out|map L pts g] eqn:Hp.
  - left. unfold scan_prepare in Hp.
    destruct (m_map n); [|injection Hp as <- _; reflexivity].
    destruct (tf _ _ _); [|injection Hp as <- _; reflexivity].
    destruct (tf _ _ _); [|injection Hp as <- _; reflexivity].
    destruct (_ <? _)%nat; [|discriminate].
    injection Hp as <- _. reflexivity.
  - right. apply scan_update_confidence.
Qed.

(** C4, amended.  A scan of which fewer than 10 points are made is skipped:
    the offset, its confidence and its time stamp are what they were, and no
    transform is sent.  A point is made of every range for which [<= 0]
    fails, which are the ranges > 0 and the NaN ranges; in a scan without
    NaN they are the ranges > 0. *)
Theorem scan_callback_too_few_points n tf scan :
  (length (point_ranges scan) < 10)%nat ->
  (offset_state (fst (scan_callback n tf scan)) = offset_state n
   /\ transforms_sent (snd (scan_callback n tf scan)) = [])
  /\ Forall (fun r => positive r \/ r = NaN) (point_ranges scan)
  /\ (Forall (fun r => r <> NaN) (ranges scan) ->
      point_ranges scan = valid_ranges scan).
Proof.
  intros Hfew. split; [|split].
  - unfold scan_callback, scan_prepare.
    destruct (m_map n) as [map|]; [|split; reflexivity].
    destruct (tf (m_base_frame n) _ _) as [sensor_to_base|]; [|split; reflexivity].
    destruct (tf (m_odom_frame n) _ _) as [base_to_odom|]; [|split; reflexivity].
    rewrite scan_points_length. fold (point_ranges scan).
    destruct (Nat.ltb_spec (length (point_ranges scan)) 10) as [_|Hge]; [|lia].
    split; reflexivity.
  - apply Forall_forall. intros r Hr. unfold point_ranges in Hr.
    apply list_elem_of_filter in Hr as [Hr _].
    apply le_zero_false, Hr.
  - apply filter_no_nan.
Qed.

(** ** Map ingestion *)

(** C5.  A map whose width differs from its height is rejected: the node is
    left as it was, whole, and no transform is sent. *)
Theorem map_callback_non_square n ros_map :
  width (info ros_map) <> height (info ros_map) ->
  fst (map_callback n ros_map) = n
  /\ transforms_sent (snd (map_callback n ros_map)) = [].
Proof.
  intros Hne. unfold map_callback.
  destruct (Nat.eqb_spec (width (info ros_map)) (height (info ros_map)));
    [contradiction|].
  split; reflexivity.
Qed.

(** ** External pose estimates *)

(** C6, amended.  An estimate in the map frame, when the odometry lookup
    succeeds, replaces the offset by the estimate's own (nothing of the old
    offset enters), stamps it with the estimate's time and sets the
    confidence to 0; an estimate in another frame leaves the node as it
    was. *)
Theorem pose_callback_overwrites n tf pose :
  (forall base_to_odom,
     frame_id (pose_header pose) = m_map_frame n ->
     tf (m_odom_frame n) (m_base_frame n) Time_zero = Some base_to_odom ->
     offset_state (fst (pose_callback n tf pose))
     = {| os_x := vec_get (estimate_offset pose base_to_odom) 0;
          os_y := vec_get (estimate_offset pose base_to_odom) 1;
          os_yaw := vec_get (estimate_offset pose base_to_odom) 2;
          os_confidence := 0;
          os_timestamp := stamp (pose_header pose) |})
  /\ (frame_id (pose_header pose) <> m_map_frame n ->
      fst (pose_callback n tf pose) = n
      /\ transforms_sent (snd (pose_callback n tf pose)) = []).
Proof.
  unfold pose_callback. split.
  - intros base_to_odom Hframe Hlookup.
    destruct (String.eqb_spec (frame_id (pose_header pose)) (m_map_frame n));
      [|contradiction].
    cbn [negb]. rewrite Hlookup. reflexivity.
  - intros Hframe.
    destruct (String.eqb_spec (frame_id (pose_header pose)) (m_map_frame n));
      [contradiction|].
    split; reflexivity.
Qed.

(** C10.  An estimate in the map frame whose odometry lookup fails leaves
    the node as it was, confidence included, and sends no transform. *)
Theorem pose_callback_lookup_failure n tf pose :
  frame_id (pose_header pose) = m_map_frame n ->
  tf (m_odom_frame n) (m_base_frame n) Time_zero = None ->
  fst (pose_callback n tf pose) = n
  /\ transforms_sent (snd (pose_callback n tf pose)) = [].
Proof.
  intros Hframe Hlookup. unfold pose_callback.
  destruct (String.eqb_spec (frame_id (pose_header pose)) (m_map_frame n));
    [|contradiction].
  cbn [negb]. rewrite Hlookup. split; reflexivity.
Qed.

(** ** Confidence *)

Lemma pose_callback_confidence n tf pose :
  m_confidence (fst (pose_callback n tf pose)) = m_confidence n
  \/ m_confidence (fst (pose_callback n tf pose)) = 0.
Proof.
  unfold pose_callback. destruct (negb _); [left; reflexivity|].
  destruct (tf _ _ _); [right|left]; reflexivity.
Qed.

Lemma map_callback_confidence n ros_map :
  m_confidence (fst (map_callback n ros_map)) = m_confidence n
  \/ m_confidence (fst (map_callback n ros_map)) = 0.
Proof.
  unfold map_callback. destruct (negb _); [left|right]; reflexivity.
Qed.

(** The step of the confidence stays between the old value and the ceiling. *)
Lemma confidence_step (c m : Q) :
  c <= m -> c <= c + (m - c) * (1 # 100) /\ c + (m - c) * (1 # 100) <= m.
Proof. intros H. split; lra. Qed.

(** Each delivery keeps the confidence between 0 and the ceiling. *)
Lemma deliver_confidence n msg :
  0 <= m_confidence n <= m_max_confidence n ->
  0 <= m_confidence (fst (deliver n msg))
    <= m_max_confidence (fst (deliver n msg)).
Proof.
  intros [H0 Hm]. destruct msg as [tf scan|tf pose|ros_map]; cbn [deliver].
  - rewrite scan_callback_max_confidence.
    destruct (scan_callback_confidence n tf scan) as [-> | ->]; [auto|].
    destruct (confidence_step _ _ Hm). split; lra.
  - rewrite pose_callback_max_confidence.
    destruct (pose_callback_confidence n tf pose) as [-> | ->]; [auto|].
    split; lra.
  - rewrite map_callback_max_confidence.
    destruct (map_callback_confidence n ros_map) as [-> | ->]; [auto|].
    split; lra.
Qed.

Lemma deliver_max_confidence n msg :
  m_max_confidence (fst (deliver n msg)) = m_max_confidence n.
Proof.
  destruct msg; cbn [deliver].
  - apply scan_callback_max_confidence.
  - apply pose_callback_max_confidence.
  - apply map_callback_max_confidence.
Qed.

Lemma run_confidence msgs : forall n,
  0 <= m_confidence n <= m_max_confidence n ->
  m_max_confidence (run n msgs) = m_max_confidence n
  /\ 0 <= m_confidence (run n msgs) <= m_max_confidence n.
Proof.
  induction msgs as [|msg rest IH]; intros n Hn; [auto|].
  cbn [run fold_left]. fold (run (fst (deliver n msg)) rest).
  destruct (IH _ (deliver_confidence n msg Hn)) as [Hmax Hc].
  rewrite deliver_max_confidence in Hmax, Hc. auto.
Qed.

(** C8.  With the confidence between 0 and the ceiling: a scan never lowers
    it and never lifts it above the ceiling; a pose estimate or a map leaves
    it or sets it to 0; and after any sequence of deliveries it is still
    between 0 and the ceiling, which no callback changes. *)
Theorem confidence_bounds n :
  0 <= m_confidence n <= m_max_confidence n ->
  (forall tf scan,
     m_confidence n <= m_confidence (fst (scan_callback n tf scan))
     /\ m_confidence (fst (scan_callback n tf scan)) <= m_max_confidence n)
  /\ (forall tf pose,
        m_confidence (fst (pose_callback n tf pose)) = m_confidence n
        \/ m_confidence (fst (pose_callback n tf pose)) = 0)
  /\ (forall ros_map,
        m_confidence (fst (map_callback n ros_map)) = m_confidence n
        \/ m_confidence (fst (map_callback n ros_map)) = 0)
  /\ (forall msgs,
        m_max_confidence (run n msgs) = m_max_confidence n
        /\ 0 <= m_confidence (run n msgs) <= m_max_confidence n).
Proof.
  intros Hn. repeat split.
  - destruct (scan_callback_confidence n tf scan) as [-> | ->]; [lra|].
    apply confidence_step, Hn.
  - destruct (scan_callback_confidence n tf scan) as [-> | ->]; [apply Hn|].
    apply confidence_step, Hn.
  - apply pose_callback_confidence.
  - apply map_callback_confidence.
  - apply run_confidence, Hn.
  - apply run_confidence, Hn.
  - apply run_confidence, Hn.
Qed.

(** ** The hypothesis search *)

Lemma check_sample_cases st :
  best_of (check_sample st) = best_of st
  \/ (r_norm (s_solver st) < best_score st
      /\ best_of (check_sample st) = result_of (s_solver st)).
Proof.
  unfold check_sample.
  destruct (Qlt_bool (r_norm (s_solver st)) (best_score st)) eqn:Hlt.
  - right. apply Qlt_bool_true in Hlt. split; [exact Hlt | reflexivity].
  - left. reflexivity.
Qed.

Lemma generate_sample_best st : best_of (generate_sample st) = best_of st.
Proof.
  unfold generate_sample.
  destruct (draw (dist_x st) (s_generator st)) as [[x dx] g1].
  destruct (draw (dist_y st) g1) as [[y dy] g2].
  destruct (draw (dist_yaw st) g2) as [[yaw dyaw] g3].
  reflexivity.
Qed.

(** One turn of the sample loop keeps the best, or replaces it by the result
    of the sample it solved, and then that result scores strictly lower. *)
Lemma sample_body_cases n map points st :
  let tried := solve_sample n map points (generate_sample st) in
  best_of (sample_body n map points st) = best_of st
  \/ (r_norm (s_solver tried) < best_score st
      /\ best_of (sample_body n map points st) = result_of (s_solver tried)).
Proof.
  intros tried. unfold sample_body. fold tried.
  assert (Hbest : best_of tried = best_of st).
  { transitivity (best_of (generate_sample st));
      [reflexivity | apply generate_sample_best]. }
  assert (Hscore : best_score tried = best_score st).
  { change (snd (best_of tried) = snd (best_of st)). now rewrite Hbest. }
  destruct (check_sample_cases tried) as [Hkeep | [Hlt Hnew]].
  - left. now rewrite Hkeep.
  - right. rewrite <- Hscore. auto.
Qed.

Lemma sample_body_score n map points st :
  best_score (sample_body n map points st) <= best_score st.
Proof.
  destruct (sample_body_cases n map points st) as [Hkeep | [Hlt Hnew]].
  - change (snd (best_of (sample_body n map points st)) <= best_score st).
    rewrite Hkeep. apply Qle_refl.
  - change (snd (best_of (sample_body n map points st)) <= best_score st).
    rewrite Hnew. apply Qlt_le_weak, Hlt.
Qed.

Lemma search_after_succ k n map points guess :
  search_after (S k) n map points guess
  = sample_body n map points (search_after k n map points guess).
Proof. reflexivity. Qed.

Lemma search_after_score k n map points guess :
  best_score (search_after k n map points guess)
  <= r_norm (solve_iterations n map points guess).
Proof.
  induction k as [|k IH].
  - apply Qle_refl.
  - rewrite search_after_succ.
    eapply Qle_trans; [apply sample_body_score | exact IH].
Qed.

(** After any number of turns the best is the result of the first run, or
    scores strictly lower than it. *)
Lemma search_after_first_or_better k n map points guess :
  best_of (search_after k n map points guess)
  = result_of (solve_iterations n map points guess)
  \/ best_score (search_after k n map points guess)
     < r_norm (solve_iterations n map points guess).
Proof.
  induction k as [|k IH].
  - left. reflexivity.
  - rewrite search_after_succ.
    destruct (sample_body_cases n map points (search_after k n map points guess))
      as [Hkeep | [Hlt Hnew]].
    + rewrite Hkeep.
      change (best_score (sample_body n map points
                            (search_after k n map points guess)))
        with (snd (best_of (sample_body n map points
                              (search_after k n map points guess)))).
      rewrite Hkeep. exact IH.
    + right.
      change (best_score (sample_body n map points
                            (search_after k n map points guess)))
        with (snd (best_of (sample_body n map points
                              (search_after k n map points guess)))).
      rewrite Hnew. cbn [result_of snd].
      eapply Qlt_le_trans; [exact Hlt | apply search_after_score].
Qed.

(** C3.  The score the search ends with is at most the score of the run
    from the odometry prediction alone; the pose it ends with is that run's,
    unless the score is strictly lower; and a turn of the sample loop
    changes the best only to the result of its own sample, and only when
    that scores strictly lower than the best so far. *)
Theorem search_never_worse n map points guess :
  let first := solve_iterations n map points guess in
  let found := search n map points guess in
  best_score found <= r_norm first
  /\ (best_of found = result_of first \/ best_score found < r_norm first)
  /\ (forall k,
        let before := search_after k n map points guess in
        let tried := solve_sample n map points (generate_sample before) in
        let after := search_after (S k) n map points guess in
        best_of after = best_of before
        \/ (r_norm (s_solver tried) < best_score before
            /\ best_of after = result_of (s_solver tried))).
Proof.
  intros first found. split; [|split].
  - apply search_after_score.
  - apply search_after_first_or_better.
  - intros k before tried after. apply sample_body_cases.
Qed.

(** The distributions keep their parameters through the sample loop. *)
Lemma generate_sample_params st :
  dist_params (generate_sample st) = dist_params st.
Proof.
  unfold generate_sample, draw.
  destruct (normal_draw _ _ (nd_state (dist_x st)) _) as [[x sx] g1].
  destruct (normal_draw _ _ (nd_state (dist_y st)) _) as [[y sy] g2].
  destruct (normal_draw _ _ (nd_state (dist_yaw st)) _) as [[yaw syaw] g3].
  reflexivity.
Qed.

Lemma check_sample_params st : dist_params (check_sample st) = dist_params st.
Proof. unfold check_sample. destruct (Qlt_bool _ _); reflexivity. Qed.

Lemma search_after_params k n map points guess :
  dist_params (search_after k n map points guess)
  = dist_params (search_first n map points guess).
Proof.
  induction k as [|k IH]; [reflexivity|].
  rewrite search_after_succ. unfold sample_body.
  rewrite check_sample_params.
  change (dist_params (solve_sample n map points ?st)) with (dist_params st).
  rewrite generate_sample_params. exact IH.
Qed.

Lemma candidate_gaussian st :
  candidate st
  = gaussian_candidate
      (nd_mean (dist_x st)) (nd_mean (dist_y st)) (nd_mean (dist_yaw st))
      (nd_stddev (dist_x st)) (nd_stddev (dist_y st)) (nd_stddev (dist_yaw st))
      (nd_state (dist_x st)) (nd_state (dist_y st)) (nd_state (dist_yaw st))
      (s_generator st).
Proof.
  unfold candidate, gaussian_candidate, generate_sample, draw.
  destruct (normal_draw _ _ (nd_state (dist_x st)) _) as [[x sx] g1].
  destruct (normal_draw _ _ (nd_state (dist_y st)) _) as [[y sy] g2].
  destruct (normal_draw _ _ (nd_state (dist_yaw st)) _) as [[yaw syaw] g3].
  reflexivity.
Qed.

(** A cycle that gets to the search starts it from [m_solver] with the
    odometry prediction as its pose. *)
Lemma scan_prepare_guess n tf scan map L points guess :
  scan_prepare n tf scan = Ready map L points guess ->
  guess = set_pose (m_solver n)
            (vec_get (odometry_prediction n L) 0)
            (vec_get (odometry_prediction n L) 1)
            (vec_get (odometry_prediction n L) 2).
Proof.
  unfold scan_prepare. intros Hready.
  destruct (m_map n); [|discriminate].
  destruct (tf (m_base_frame n) _ _); [|discriminate].
  destruct (tf (m_odom_frame n) _ _); [|discriminate].
  destruct (_ <? _)%nat; [discriminate|].
  injection Hready as _ <- _ <-. reflexivity.
Qed.

(** The sample loop, from any state of the search, does what the spec's
    words say, with the parameters the distributions have in that state. *)
Lemma sample_loop_sampled n map points k : forall st,
  let st' := Nat.iter k (sample_body n map points) st in
  (best_of st', s_solver st', s_generator st')
  = sampled_search k (solve_iterations n map points)
      (nd_mean (dist_x st), nd_mean (dist_y st), nd_mean (dist_yaw st))
      (nd_stddev (dist_x st), nd_stddev (dist_y st), nd_stddev (dist_yaw st))
      (nd_state (dist_x st), nd_state (dist_y st), nd_state (dist_yaw st))
      (s_generator st) (s_solver st) (best_of st).
Proof.
  induction k as [|k IH]; intros st; [reflexivity|].
  cbv zeta. rewrite Nat.iter_succ_r.
  specialize (IH (sample_body n map points st)). cbv zeta in IH. rewrite IH.
  cbn [sampled_search].
  unfold sample_body, generate_sample, draw.
  destruct (normal_draw _ _ (nd_state (dist_x st)) _) as [[x sx] g1].
  destruct (normal_draw _ _ (nd_state (dist_y st)) _) as [[y sy] g2].
  destruct (normal_draw _ _ (nd_state (dist_yaw st)) _) as [[yaw syaw] g3].
  unfold check_sample, solve_sample.
  cbn [s_solver best_score best_of snd].
  destruct (Qlt_bool _ _); reflexivity.
Qed.

(** C7.  In a cycle that gets to the search, the callback continues with the
    search from [guess], whose pose is the odometry prediction, and the
    candidate of each of its [m_sample_rate] turns is drawn from normal
    distributions whose means are the pose of [guess] itself, not of the
    solver after its first run, and whose standard deviations are the
    configured ones times [fmax (1 - m_confidence, 0)] at the confidence the
    node had on entry.  What the search hands on (the best, the solver, the
    generator) is what [m_sample_rate] such trials leave, each drawing its
    candidate so, solving from it, and keeping the result if it scores
    strictly lower. *)
Theorem samples_around_guess n tf scan map L points guess k :
  scan_prepare n tf scan = Ready map L points guess ->
  (k < Z.to_nat (m_sample_rate n))%nat ->
  let st := search_after k n map points guess in
  let rel_std_dev := fmax (1 - m_confidence n) 0 in
  let first := solve_iterations n map points guess in
  let found := search n map points guess in
  scan_callback n tf scan = scan_update n scan L (search n map points guess)
  /\ (pose_x guess, pose_y guess, pose_yaw guess)
     = (vec_get (odometry_prediction n L) 0,
        vec_get (odometry_prediction n L) 1,
        vec_get (odometry_prediction n L) 2)
  /\ candidate st
     = gaussian_candidate
         (pose_x guess) (pose_y guess) (pose_yaw guess)
         (m_sample_std_x n * rel_std_dev) (m_sample_std_y n * rel_std_dev)
         (m_sample_std_yaw n * rel_std_dev)
         (nd_state (dist_x st)) (nd_state (dist_y st)) (nd_state (dist_yaw st))
         (s_generator st)
  /\ (best_of found, s_solver found, s_generator found)
     = sampled_search (Z.to_nat (m_sample_rate n))
         (solve_iterations n map points)
         (pose_x guess, pose_y guess, pose_yaw guess)
         (m_sample_std_x n * rel_std_dev, m_sample_std_y n * rel_std_dev,
          m_sample_std_yaw n * rel_std_dev)
         (normal_reset, normal_reset, normal_reset)
         (m_generator n) first (result_of first).
Proof.
  intros Hready Hk st rel_std_dev first found. split; [|split; [|split]].
  - unfold scan_callback. rewrite Hready. reflexivity.
  - rewrite (scan_prepare_guess _ _ _ _ _ _ _ Hready). reflexivity.
  - rewrite candidate_gaussian.
    pose proof (search_after_params k n map points guess) as Hp.
    fold st in Hp. unfold dist_params in Hp. cbn [search_first dist_x dist_y dist_yaw
      normal_distribution_new nd_mean nd_stddev] in Hp.
    injection Hp as -> -> -> -> -> ->. reflexivity.
  - unfold found, search, search_after.
    rewrite (sample_loop_sampled n map points _ (search_first n map points guess)).
    reflexivity.
Qed.

(** ** The yaw filter *)

Lemma scan_update_yaw n scan L st :
  m_offset_yaw (fst (scan_update n scan L st))
  = blend_yaw (m_offset_yaw n) (vec_get (corrected_offset n L st) 2)
              (m_update_gain n).
Proof. reflexivity. Qed.

(** C2, amended.  With an update gain between 0 and 1, the new offset yaw is
    the old one plus the gain times [d], where [d] is more than minus a half
    turn and at most a half turn, leads from the old yaw to the corrected
    one up to whole turns, and is the shortest such way; the new yaw lies
    between the old yaw and the old yaw plus [d].  Nothing is said about the
    new yaw being within a half turn of 0. *)
Theorem scan_update_yaw_shorter_path n scan L st :
  0 <= m_update_gain n <= 1 ->
  let yaw := m_offset_yaw n in
  let target := vec_get (corrected_offset n L st) 2 in
  let d := angles.shortest_angular_distance yaw target in
  let yaw' := m_offset_yaw (fst (scan_update n scan L st)) in
  yaw' = yaw + d * m_update_gain n
  /\ (- M_PI < d /\ d <= M_PI)
  /\ (exists k : Z, yaw + d == target + inject_Z k * (2 * M_PI))
  /\ (forall k : Z, Qabs d <= Qabs (target - yaw + inject_Z k * (2 * M_PI)))
  /\ (0 <= d -> yaw <= yaw' <= yaw + d)
  /\ (d <= 0 -> yaw + d <= yaw' <= yaw).
Proof.
  intros [Hg0 Hg1] yaw target d yaw'.
  assert (Hyaw' : yaw' = yaw + d * m_update_gain n) by reflexivity.
  destruct (normalize_angle_range (target - yaw)) as [Hlo Hhi].
  destruct (normalize_angle_turns (target - yaw)) as [j Hj].
  fold (angles.shortest_angular_distance yaw target) in Hlo, Hhi, Hj.
  fold d in Hlo, Hhi, Hj.
  split; [exact Hyaw'|]. split; [auto|]. split; [|split; [|split]].
  - exists j. rewrite Hj. ring.
  - intros k.
    assert (Hk : target - yaw + inject_Z k * (2 * M_PI)
                 == d + inject_Z (k - j) * (2 * M_PI)).
    { rewrite Hj. unfold Z.sub. rewrite inject_Z_plus, inject_Z_opp. ring. }
    rewrite Hk. apply half_turn_shortest; assumption.
  - intros Hd. rewrite Hyaw'. split; nra.
  - intros Hd. rewrite Hyaw'. split; nra.
Qed.

(** ** Map conversion *)

Lemma convert_map_in_unit ros_map size scale :
  in_unit (convert_map ros_map (GridMap_new size scale)).
Proof.
  destruct (convert_rows_cells ros_map size (GridMap_new size scale)
              (GridMap_new_ok _ _) ltac:(reflexivity)) as (_ & Hsize & Hget).
  intros x y Hx Hy. unfold convert_map in Hx, Hy |- *.
  change (gm_size (GridMap_new size scale)) with size in *.
  rewrite Hsize in Hx, Hy. rewrite Hget.
  destruct (decide _) as [_|Hn]; [|exfalso; apply Hn; lia].
  apply convert_cell_cases.
Qed.

(** C9.  For a square map that carries all its cells, map ingestion builds
    the grid by the two conversion loops and installs it after the
    configured downscaling and smoothing; each cell of the grid the loops
    build is the conversion of the map's cell at the same place, which is
    between 0 and 1: the hundredth of a raw value from 0 to 100, 1 for a raw
    value above 100, and 0 for a negative one.  With downscaling and
    smoothing as the spec describes them (block averages and box averages),
    every cell of the grid that is installed is between 0 and 1 too. *)
Theorem map_callback_cells n ros_map x y :
  width (info ros_map) = height (info ros_map) ->
  length (data ros_map) = (width (info ros_map) * height (info ros_map))%nat ->
  (x < width (info ros_map))%nat -> (y < height (info ros_map))%nat ->
  let built :=
    convert_map ros_map
      (GridMap_new (width (info ros_map)) (resolution (info ros_map))) in
  let cell := data ros_map !!! (y * width (info ros_map) + x)%nat in
  m_map (fst (map_callback n ros_map))
  = Some (Nat.iter (Z.to_nat (m_num_smooth n)) smooth_33_1
            (Nat.iter (Z.to_nat (m_map_downscale n)) downscale built))
  /\ data ros_map !! (y * width (info ros_map) + x)%nat = Some cell
  /\ gm_get built x y = convert_cell cell
  /\ 0 <= gm_get built x y <= 1
  /\ ((0 <= cell <= 100)%Z -> gm_get built x y = inject_Z cell / 100)
  /\ ((100 < cell)%Z -> gm_get built x y = 1)
  /\ ((cell < 0)%Z -> gm_get built x y = 0)
  /\ (grid_ops_as_spec ->
      exists installed,
        m_map (fst (map_callback n ros_map)) = Some installed
        /\ in_unit installed).
Proof.
  intros Hsquare Hlen Hx Hy built cell.
  assert (Hcell : data ros_map !! (y * width (info ros_map) + x)%nat = Some cell).
  { apply list_lookup_lookup_total_lt. rewrite Hlen. nia. }
  assert (Hbuilt : gm_get built x y = convert_cell cell).
  { unfold built, convert_map.
    set (g := GridMap_new _ _).
    destruct (convert_rows_cells ros_map (gm_size g) g (GridMap_new_ok _ _)
                ltac:(lia)) as (_ & _ & Hget).
    rewrite Hget. change (gm_size g) with (width (info ros_map)).
    destruct (decide _) as [_|Hn]; [|exfalso; apply Hn; lia].
    unfold read_data. rewrite Hcell. reflexivity. }
  assert (Hinstalled :
    m_map (fst (map_callback n ros_map))
    = Some (Nat.iter (Z.to_nat (m_num_smooth n)) smooth_33_1
              (Nat.iter (Z.to_nat (m_map_downscale n)) downscale built))).
  { unfold map_callback.
    destruct (Nat.eqb_spec (width (info ros_map)) (height (info ros_map)));
      [reflexivity | contradiction]. }
  split; [exact Hinstalled|]. split; [exact Hcell|].
  rewrite Hbuilt. split; [reflexivity|].
  split; [apply convert_cell_cases|]. split; [apply convert_cell_cases|].
  split; [apply convert_cell_cases|]. split; [apply convert_cell_cases|].
  intros [Hdown Hsmooth]. eexists. split; [exact Hinstalled|].
  apply iter_in_unit.
  { intros g Hg. rewrite Hsmooth. apply GridMap_smooth_33_1_in_unit, Hg. }
  apply iter_in_unit.
  { intros g Hg. rewrite Hdown. apply GridMap_downscale_in_unit, Hg. }
  apply convert_map_in_unit.
Qed.

End Properties.


(** * Further properties of the callbacks *)

Section Further.

Context {E : Extern}.

(** ** What a delivery leaves alone *)

Lemma deliver_config n msg : config (fst (deliver n msg)) = config n.
Proof.
  destruct msg as [tf scan|tf pose|ros_map]; cbn [deliver].
  - unfold scan_callback, scan_prepare.
    destruct (m_map n); [|reflexivity].
    destruct (tf _ _ _); [|reflexivity].
    destruct (tf _ _ _); [|reflexivity].
    destruct (_ <? _)%nat; reflexivity.
  - unfold pose_callback. destruct (negb _); [reflexivity|].
    destruct (tf _ _ _); reflexivity.
  - unfold map_callback. destruct (negb _); reflexivity.
Qed.

Lemma run_cons n msg rest :
  run n (msg :: rest) = run (fst (deliver n msg)) rest.
Proof. reflexivity. Qed.

Lemma run_keeps_config msgs : forall n, config (run n msgs) = config n.
Proof.
  induction msgs as [|msg rest IH]; intros n; [reflexivity|].
  rewrite run_cons, IH. apply deliver_config.
Qed.

(** X9.  No callback assigns a parameter: after any sequence of deliveries
    the node holds the configuration it was constructed with. *)
Theorem run_config msgs n : config (run n msgs) = config n.
Proof. apply run_keeps_config. Qed.

Lemma scan_callback_grid n tf scan :
  m_map (fst (scan_callback n tf scan)) = m_map n
  /\ m_grid_to_map (fst (scan_callback n tf scan)) = m_grid_to_map n.
Proof.
  unfold scan_callback, scan_prepare.
  destruct (m_map n) eqn:Hmap; [|split; [exact Hmap | reflexivity]].
  destruct (tf _ _ _); [|split; [exact Hmap | reflexivity]].
  destruct (tf _ _ _); [|split; [exact Hmap | reflexivity]].
  destruct (_ <? _)%nat; split; first [exact Hmap | reflexivity].
Qed.

Lemma pose_callback_grid n tf pose :
  m_map (fst (pose_callback n tf pose)) = m_map n
  /\ m_grid_to_map (fst (pose_callback n tf pose)) = m_grid_to_map n.
Proof.
  unfold pose_callback. destruct (negb _); [split; reflexivity|].
  destruct (tf _ _ _); split; reflexivity.
Qed.

Lemma deliver_map_stays n msg :
  m_map n <> None -> m_map (fst (deliver n msg)) <> None.
Proof.
  intros Hmap. destruct msg as [tf scan|tf pose|ros_map]; cbn [deliver].
  - now rewrite (proj1 (scan_callback_grid n tf scan)).
  - now rewrite (proj1 (pose_callback_grid n tf pose)).
  - unfold map_callback. destruct (negb _); [exact Hmap | discriminate].
Qed.

(** X10.  A scan or a pose estimate never touches the grid or its transform
    to the map frame; so once a map is installed, a map stays installed
    whatever is delivered. *)
Theorem grid_only_changed_by_map n :
  (forall tf scan,
     m_map (fst (scan_callback n tf scan)) = m_map n
     /\ m_grid_to_map (fst (scan_callback n tf scan)) = m_grid_to_map n)
  /\ (forall tf pose,
        m_map (fst (pose_callback n tf pose)) = m_map n
        /\ m_grid_to_map (fst (pose_callback n tf pose)) = m_grid_to_map n)
  /\ (forall msgs, m_map n <> None -> m_map (run n msgs) <> None).
Proof.
  split; [|split].
  - apply scan_callback_grid.
  - apply pose_callback_grid.
  - intros msgs. revert n. induction msgs as [|msg rest IH]; intros n Hmap.
    + exact Hmap.
    + rewrite run_cons. apply IH, deliver_map_stays, Hmap.
Qed.

(** ** Scans that are not used *)

Lemma scan_callback_no_map n tf scan :
  m_map n = None -> scan_callback n tf scan = (n, []).
Proof.
  intros Hmap. unfold scan_callback, scan_prepare. rewrite Hmap. reflexivity.
Qed.

(** X1.  While no map is installed a scan does nothing at all: the node is
    left as it is and nothing is sent, not even a warning; and so for any
    sequence of scans. *)
Theorem scans_without_map n :
  m_map n = None ->
  (forall tf scan, scan_callback n tf scan = (n, []))
  /\ (forall msgs, forallb is_scan msgs = true ->
        run n msgs = n /\ trace n msgs = []).
Proof.
  intros Hmap. split.
  - intros tf scan. apply scan_callback_no_map, Hmap.
  - induction msgs as [|msg rest IH]; intros Hscans; [split; reflexivity|].
    cbn [forallb] in Hscans. apply andb_prop in Hscans as [Hmsg Hrest].
    destruct msg as [tf scan| |]; try discriminate.
    rewrite run_cons. cbn [trace deliver].
    rewrite (scan_callback_no_map n tf scan Hmap). cbn [fst snd app].
    apply IH, Hrest.
Qed.

(** X2.  With a map installed, a scan for which a tf lookup fails is
    dropped, the node left as it is: when the sensor lookup fails the only
    output is its warning, whatever the odometry lookup would give; when the
    sensor lookup succeeds and the odometry lookup fails the only output is
    the warning of the odometry lookup. *)
Theorem scan_callback_lookup_failure n tf scan map :
  m_map n = Some map ->
  (tf (m_base_frame n) (frame_id (scan_header scan)) (stamp (scan_header scan))
     = None ->
   scan_callback n tf scan = (n, [ROS_WARN LookupSensorToBaseFailed]))
  /\ (forall sensor_to_base,
        tf (m_base_frame n) (frame_id (scan_header scan))
           (stamp (scan_header scan)) = Some sensor_to_base ->
        tf (m_odom_frame n) (m_base_frame n) (stamp (scan_header scan)) = None ->
        scan_callback n tf scan = (n, [ROS_WARN LookupBaseToOdomFailed])).
Proof.
  intros Hmap. unfold scan_callback, scan_prepare. rewrite Hmap. split.
  - intros Hsensor. rewrite Hsensor. reflexivity.
  - intros sensor_to_base Hsensor Hodom. rewrite Hsensor, Hodom. reflexivity.
Qed.

(** X3.  A scan dropped because fewer than 10 points were made of it has
    nevertheless moved the solver: the node comes out with [m_solver]'s pose
    set to the odometry prediction (gain, damping and score as they were) and
    is otherwise unchanged; the warning carries the number of points, which
    is the number of ranges for which [<= 0] fails. *)
Theorem scan_callback_too_few_sets_guess n tf scan map sensor_to_base base_to_odom :
  m_map n = Some map ->
  tf (m_base_frame n) (frame_id (scan_header scan)) (stamp (scan_header scan))
    = Some sensor_to_base ->
  tf (m_odom_frame n) (m_base_frame n) (stamp (scan_header scan))
    = Some base_to_odom ->
  (length (point_ranges scan) < 10)%nat ->
  let prediction := odometry_prediction n (convert_transform_25 base_to_odom) in
  scan_callback n tf scan
  = (set_solver n (set_pose (m_solver n) (vec_get prediction 0)
                            (vec_get prediction 1) (vec_get prediction 2)),
     [ROS_WARN (NumberOfPointsTooLow (length (point_ranges scan)))]).
Proof.
  intros Hmap Hs Hb Hfew prediction.
  unfold scan_callback, scan_prepare. rewrite Hmap, Hs, Hb.
  rewrite scan_points_length. fold (point_ranges scan).
  destruct (Nat.ltb_spec (length (point_ranges scan)) 10) as [_|Hge]; [|lia].
  reflexivity.
Qed.

(** ** What is broadcast *)

Lemma broadcast_cases n :
  broadcast n = if m_broadcast_tf n then [sendTransform (offset_transform n)] else [].
Proof. reflexivity. Qed.

Lemma transforms_sent_app out1 out2 :
  transforms_sent (out1 ++ out2) = transforms_sent out1 ++ transforms_sent out2.
Proof. unfold transforms_sent. apply List.filter_app. Qed.

Lemma transforms_sent_broadcast n notice :
  transforms_sent (broadcast n ++ [ROS_INFO notice]) = broadcast n.
Proof.
  rewrite broadcast_cases. destruct (m_broadcast_tf n); reflexivity.
Qed.

(** Every delivery sends what [broadcast] makes of the node it leaves, or
    no transform. *)
Lemma deliver_transforms n msg :
  transforms_sent (snd (deliver n msg)) = []
  \/ transforms_sent (snd (deliver n msg)) = broadcast (fst (deliver n msg)).
Proof.
  destruct msg as [tf scan|tf pose|ros_map]; cbn [deliver].
  - unfold scan_callback. destruct (scan_prepare n tf scan) as [n' out|map L pts g] eqn:Hp.
    + left. unfold scan_prepare in Hp.
      destruct (m_map n); [|injection Hp as _ <-; reflexivity].
      destruct (tf _ _ _); [|injection Hp as _ <-; reflexivity].
      destruct (tf _ _ _); [|injection Hp as _ <-; reflexivity].
      destruct (_ <? _)%nat; [|discriminate].
      injection Hp as _ <-. reflexivity.
    + right. unfold scan_update. cbn [fst snd]. apply transforms_sent_broadcast.
  - unfold pose_callback. destruct (negb _); [left; reflexivity|].
    destruct (tf _ _ _); [right|left; reflexivity].
    cbn [fst snd]. apply transforms_sent_broadcast.
  - left. unfold map_callback. destruct (negb _); [reflexivity|].
    cbn [snd transforms_sent List.filter is_sendTransform].
    induction (seq 0 (Z.to_nat (m_num_smooth n))) as [|i l IH]; [reflexivity|].
    exact IH.
Qed.

(** X8.  A delivery sends at most one transform, and the one it sends
    carries the offset the node has after the delivery: its time stamp, its
    x and y with z = 0, the quaternion of its yaw, from the map frame to the
    odometry frame.  A map never makes the node send one. *)
Theorem sent_transform_is_new_offset n msg :
  let n' := fst (deliver n msg) in
  (transforms_sent (snd (deliver n msg)) = []
   \/ (m_broadcast_tf n = true
       /\ transforms_sent (snd (deliver n msg))
          = [sendTransform
               {| ts_stamp := m_offset_time n';
                  ts_frame_id := m_map_frame n;
                  ts_child_frame_id := m_odom_frame n;
                  ts_translation :=
                    {| p_x := m_offset_x n'; p_y := m_offset_y n'; p_z := 0 |};
                  ts_rotation := createQuaternionFromYaw (m_offset_yaw n') |}]))
  /\ (forall ros_map, msg = OnMap ros_map ->
        transforms_sent (snd (deliver n msg)) = []).
Proof.
  intros n'. split.
  - destruct (deliver_transforms n msg) as [Hnone | Hsent]; [left; exact Hnone|].
    rewrite Hsent, broadcast_cases. fold n'.
    pose proof (deliver_config n msg) as Hc. fold n' in Hc.
    unfold config in Hc. injection Hc as Hb _ Ho Hm _ _ _ _ _ _ _ _ _ _.
    rewrite Hb. destruct (m_broadcast_tf n); [right|left; reflexivity].
    split; [reflexivity|]. unfold offset_transform. rewrite Ho, Hm. reflexivity.
  - intros ros_map ->. cbn [deliver]. unfold map_callback.
    destruct (negb _); [reflexivity|].
    cbn [snd transforms_sent List.filter is_sendTransform].
    induction (seq 0 (Z.to_nat (m_num_smooth n))) as [|i l IH]; [reflexivity|].
    exact IH.
Qed.

(** X7.  With [broadcast_tf] off the node never sends a transform, whatever
    is delivered and however often. *)
Theorem broadcast_off_sends_nothing msgs : forall n,
  m_broadcast_tf n = false -> transforms_sent (trace n msgs) = [].
Proof.
  induction msgs as [|msg rest IH]; intros n Hoff; [reflexivity|].
  cbn [trace]. rewrite transforms_sent_app.
  pose proof (deliver_config n msg) as Hc.
  unfold config in Hc. injection Hc as Hb _ _ _ _ _ _ _ _ _ _ _ _ _.
  rewrite IH by congruence.
  destruct (deliver_transforms n msg) as [-> | ->]; [reflexivity|].
  rewrite broadcast_cases, Hb, Hoff. reflexivity.
Qed.

(** ** A map that is accepted *)

Lemma map_callback_installs n ros_map :
  width (info ros_map) = height (info ros_map) ->
  exists g, m_map (fst (map_callback n ros_map)) = Some g.
Proof.
  intros Hsquare. unfold map_callback.
  destruct (Nat.eqb_spec (width (info ros_map)) (height (info ros_map)));
    [|contradiction].
  eexists. reflexivity.
Qed.

(** X11.  Ingesting a square map keeps the offset and its time stamp, sets
    the confidence to 0, takes the grid transform from the map's origin,
    leaves the solver and the generator alone, and logs the dimensions and
    one line per smoothing pass. *)
Theorem map_callback_accepts n ros_map :
  width (info ros_map) = height (info ros_map) ->
  let n' := fst (map_callback n ros_map) in
  offset_state n'
  = {| os_x := m_offset_x n; os_y := m_offset_y n; os_yaw := m_offset_yaw n;
       os_confidence := 0; os_timestamp := m_offset_time n |}
  /\ m_grid_to_map n' = convert_transform_25 (poseMsgToTF (origin (info ros_map)))
  /\ m_map n' <> None
  /\ m_solver n' = m_solver n /\ m_generator n' = m_generator n
  /\ snd (map_callback n ros_map)
     = ROS_INFO (GotMap (width (info ros_map)) (height (info ros_map))
                        (resolution (info ros_map)))
       :: List.map (fun i => ROS_INFO (SmoothIter i))
            (seq 0 (Z.to_nat (m_num_smooth n))).
Proof.
  intros Hsquare. unfold map_callback.
  destruct (Nat.eqb_spec (width (info ros_map)) (height (info ros_map)));
    [|contradiction].
  cbn [negb fst snd]. repeat split. discriminate.
Qed.

(** ** The low pass filter on the offset *)

(** X4.  In a cycle that gets to the end, the distance of the offset's x and
    y to the corrected offset shrinks by the factor 1 - update_gain; with a
    gain between 0 and 1 the new x and y lie between the old ones and the
    corrected ones. *)
Theorem scan_callback_xy_filter n tf scan map L points guess :
  scan_prepare n tf scan = Ready map L points guess ->
  0 <= m_update_gain n <= 1 ->
  let corrected := corrected_offset n L (search n map points guess) in
  let n' := fst (scan_callback n tf scan) in
  m_offset_x n' - vec_get corrected 0
    == (1 - m_update_gain n) * (m_offset_x n - vec_get corrected 0)
  /\ m_offset_y n' - vec_get corrected 1
      == (1 - m_update_gain n) * (m_offset_y n - vec_get corrected 1)
  /\ (m_offset_x n <= vec_get corrected 0 ->
        m_offset_x n <= m_offset_x n' <= vec_get corrected 0)
  /\ (vec_get corrected 0 <= m_offset_x n ->
        vec_get corrected 0 <= m_offset_x n' <= m_offset_x n)
  /\ (m_offset_y n <= vec_get corrected 1 ->
        m_offset_y n <= m_offset_y n' <= vec_get corrected 1)
  /\ (vec_get corrected 1 <= m_offset_y n ->
        vec_get corrected 1 <= m_offset_y n' <= m_offset_y n).
Proof.
  intros Hready [Hg0 Hg1] corrected n'.
  assert (Hx : m_offset_x n' = vec_get corrected 0 * m_update_gain n
                               + m_offset_x n * (1 - m_update_gain n)).
  { unfold n', scan_callback. rewrite Hready. reflexivity. }
  assert (Hy : m_offset_y n' = vec_get corrected 1 * m_update_gain n
                               + m_offset_y n * (1 - m_update_gain n)).
  { unfold n', scan_callback. rewrite Hready. reflexivity. }
  rewrite Hx, Hy. repeat split; intros; nra.
Qed.

(** An angle within a half turn of 0 is its own normalisation. *)
Lemma normalize_angle_id (a : Q) :
  - M_PI < a -> a <= M_PI -> angles.normalize_angle a == a.
Proof.
  intros Hlo Hhi. pose proof M_PI_pos as Hpi.
  unfold angles.normalize_angle, fmod.
  destruct (trunc_frac ((a + M_PI) / (2 * M_PI)))
    as (f & Hq & Hf0 & Hf1 & Hfpos & _).
  set (t := trunc ((a + M_PI) / (2 * M_PI))) in *.
  assert (Hx : a + M_PI == (inject_Z t + f) * (2 * M_PI)).
  { rewrite <- Hq. field. lra. }
  assert (Hfnn : 0 <= f).
  { apply Hfpos. apply Qle_shift_div_l; lra. }
  assert (Ht0 : (0 <= t)%Z).
  { assert (H : inject_Z (-1) < inject_Z t).
    { change (inject_Z (-1)) with (-1). nra. }
    rewrite <- Zlt_Qlt in H. lia. }
  assert (Ht1 : (t <= 1)%Z).
  { assert (H : inject_Z t <= inject_Z 1).
    { change (inject_Z 1) with 1. nra. }
    rewrite <- Zle_Qle in H. exact H. }
  assert (Ht : t = 0%Z \/ t = 1%Z) by lia.
  destruct (Qle_bool (a + M_PI - inject_Z t * (2 * M_PI)) 0) eqn:Hle.
  - apply Qle_bool_iff in Hle.
    destruct Ht as [Ht | Ht]; rewrite Ht in *;
      [change (inject_Z 0) with 0 in * | change (inject_Z 1) with 1 in *]; nra.
  - apply Qle_bool_false in Hle.
    destruct Ht as [Ht | Ht]; rewrite Ht in *;
      [change (inject_Z 0) with 0 in * | change (inject_Z 1) with 1 in *]; nra.
Qed.

(** X6.  When the corrected yaw is within a half turn of the offset yaw, the
    yaw is filtered exactly as x and y are: the new yaw is the corrected one
    times the gain plus the old one times 1 - gain. *)
Theorem scan_callback_yaw_filter n tf scan map L points guess :
  scan_prepare n tf scan = Ready map L points guess ->
  let target := vec_get (corrected_offset n L (search n map points guess)) 2 in
  - M_PI < target - m_offset_yaw n -> target - m_offset_yaw n <= M_PI ->
  m_offset_yaw (fst (scan_callback n tf scan))
  == target * m_update_gain n + m_offset_yaw n * (1 - m_update_gain n).
Proof.
  intros Hready target Hlo Hhi.
  assert (Hyaw : m_offset_yaw (fst (scan_callback n tf scan))
                 = blend_yaw (m_offset_yaw n) target (m_update_gain n)).
  { unfold scan_callback. rewrite Hready. reflexivity. }
  rewrite Hyaw. unfold blend_yaw, angles.shortest_angular_distance.
  rewrite (normalize_angle_id _ Hlo Hhi). ring.
Qed.

(** X5.  The ends of the gain.  With update_gain 0 a completed cycle leaves
    x, y and yaw where they were, yet stamps the offset with the scan's time
    and raises the confidence as ever; with update_gain 1 it puts x and y on
    the corrected offset and the yaw on the corrected yaw up to whole
    turns. *)
Theorem scan_callback_gain_ends n tf scan map L points guess :
  scan_prepare n tf scan = Ready map L points guess ->
  let corrected := corrected_offset n L (search n map points guess) in
  let n' := fst (scan_callback n tf scan) in
  (m_update_gain n == 0 ->
     m_offset_x n' == m_offset_x n /\ m_offset_y n' == m_offset_y n
     /\ m_offset_yaw n' == m_offset_yaw n
     /\ m_offset_time n' = stamp (scan_header scan)
     /\ m_confidence n'
        = m_confidence n + (m_max_confidence n - m_confidence n) * (1 # 100))
  /\ (m_update_gain n == 1 ->
       m_offset_x n' == vec_get corrected 0
       /\ m_offset_y n' == vec_get corrected 1
       /\ exists k : Z,
            m_offset_yaw n' == vec_get corrected 2 + inject_Z k * (2 * M_PI)).
Proof.
  intros Hready corrected n'.
  assert (Hn' : n' = fst (scan_update n scan L (search n map points guess))).
  { unfold n', scan_callback. rewrite Hready. reflexivity. }
  rewrite Hn'. cbn [scan_update fst m_offset_x m_offset_y m_offset_yaw
                    m_offset_time m_confidence assign]. fold corrected.
  unfold blend_yaw. split.
  - intros Hg. repeat split; try (rewrite Hg; ring).
  - intros Hg. split; [rewrite Hg; ring|]. split; [rewrite Hg; ring|].
    destruct (normalize_angle_turns (vec_get corrected 2 - m_offset_yaw n))
      as [k Hk].
    exists k. unfold angles.shortest_angular_distance. rewrite Hk, Hg. ring.
Qed.

(** ** More on the search *)

Lemma check_sample_le st :
  best_score (check_sample st) <= r_norm (s_solver st).
Proof.
  unfold check_sample.
  destruct (Qlt_bool (r_norm (s_solver st)) (best_score st)) eqn:Hlt.
  - apply Qle_refl.
  - unfold Qlt_bool in Hlt. apply Qle_bool_iff.
    now destruct (Qle_bool (best_score st) (r_norm (s_solver st))).
Qed.

Lemma search_after_le_tried k n map points guess : forall j,
  (j < k)%nat ->
  best_score (search_after k n map points guess)
  <= r_norm (tried j n map points guess).
Proof.
  induction k as [|k IH]; intros j Hj; [lia|].
  rewrite search_after_succ.
  destruct (decide (j = k)) as [-> | Hne].
  - unfold sample_body, tried. apply check_sample_le.
  - eapply Qle_trans; [apply sample_body_score|]. apply IH. lia.
Qed.

Lemma search_after_among k n map points guess :
  best_of (search_after k n map points guess)
  = result_of (solve_iterations n map points guess)
  \/ exists j, (j < k)%nat
       /\ best_of (search_after k n map points guess)
          = result_of (tried j n map points guess).
Proof.
  induction k as [|k IH]; [left; reflexivity|].
  rewrite search_after_succ.
  destruct (sample_body_cases n map points (search_after k n map points guess))
    as [Hkeep | [_ Hnew]].
  - rewrite Hkeep. destruct IH as [IH | (j & Hj & IH)]; [left; exact IH|].
    right. exists j. split; [lia | exact IH].
  - right. exists k. split; [lia | exact Hnew].
Qed.

(** X13.  The search ends with the lowest score among the run from the
    odometry prediction and all the samples it solved, together with the pose
    of a run that reached this score. *)
Theorem search_finds_minimum n map points guess :
  let first := solve_iterations n map points guess in
  let found := search n map points guess in
  let count := Z.to_nat (m_sample_rate n) in
  best_score found <= r_norm first
  /\ (forall j, (j < count)%nat ->
        best_score found <= r_norm (tried j n map points guess))
  /\ (best_of found = result_of first
      \/ exists j, (j < count)%nat
           /\ best_of found = result_of (tried j n map points guess)).
Proof.
  intros first found count. split; [|split].
  - apply search_after_score.
  - intros j Hj. apply search_after_le_tried, Hj.
  - apply search_after_among.
Qed.

Lemma Qlt_bool_irrefl (a : Q) : Qlt_bool a a = false.
Proof.
  unfold Qlt_bool. assert (H : Qle_bool a a = true).
  { apply Qle_bool_iff, Qle_refl. }
  now rewrite H.
Qed.

Lemma generate_sample_r_norm st :
  r_norm (s_solver (generate_sample st)) = r_norm (s_solver st).
Proof.
  unfold generate_sample.
  destruct (draw (dist_x st) (s_generator st)) as [[x dx] g1].
  destruct (draw (dist_y st) g1) as [[y dy] g2].
  destruct (draw (dist_yaw st) g2) as [[yaw dyaw] g3].
  reflexivity.
Qed.

(** Without solver iterations no turn of the sample loop changes the best
    or the score the solver holds. *)
Lemma search_after_no_iterations k n map points guess :
  (m_solver_iterations n <= 0)%Z ->
  best_of (search_after k n map points guess) = result_of guess
  /\ r_norm (s_solver (search_after k n map points guess)) = r_norm guess.
Proof.
  intros Hiter.
  assert (Hsolve : forall s, solve_iterations n map points s = s).
  { intros s. unfold solve_iterations.
    replace (Z.to_nat (m_solver_iterations n)) with 0%nat by lia. reflexivity. }
  induction k as [|k [IHbest IHnorm]].
  - unfold search_after. cbn [Nat.iter]. unfold search_first.
    rewrite Hsolve. split; reflexivity.
  - rewrite search_after_succ. unfold sample_body.
    set (st := search_after k n map points guess) in *.
    assert (Hr : r_norm (s_solver (solve_sample n map points (generate_sample st)))
                 = r_norm guess).
    { cbn [solve_sample s_solver]. rewrite Hsolve, generate_sample_r_norm.
      exact IHnorm. }
    assert (Hb : best_of (solve_sample n map points (generate_sample st))
                 = result_of guess).
    { transitivity (best_of (generate_sample st)); [reflexivity|].
      rewrite generate_sample_best. exact IHbest. }
    assert (Hs : best_score (solve_sample n map points (generate_sample st))
                 = r_norm guess).
    { change (snd (best_of (solve_sample n map points (generate_sample st)))
              = r_norm guess). rewrite Hb. reflexivity. }
    unfold check_sample. rewrite Hr, Hs, Qlt_bool_irrefl. split; assumption.
Qed.

(** X14.  The degenerate loop bounds.  With [sample_rate] not positive the
    search is the run from the odometry prediction and nothing else: no
    sample is drawn and the cycle leaves the generator as it was.  With
    [solver_iterations] not positive the solver never runs, and the search
    ends on the odometry prediction itself with the score the solver held
    before the cycle. *)
Theorem search_degenerate_bounds n tf scan map L points guess :
  scan_prepare n tf scan = Ready map L points guess ->
  ((m_sample_rate n <= 0)%Z ->
     search n map points guess = search_first n map points guess
     /\ best_of (search n map points guess)
        = result_of (solve_iterations n map points guess)
     /\ m_generator (fst (scan_callback n tf scan)) = m_generator n)
  /\ ((m_solver_iterations n <= 0)%Z ->
       best_of (search n map points guess)
       = (vec_get (odometry_prediction n L) 0,
          vec_get (odometry_prediction n L) 1,
          vec_get (odometry_prediction n L) 2,
          r_norm (m_solver n))).
Proof.
  intros Hready. split.
  - intros Hrate.
    assert (Hsearch : search n map points guess = search_first n map points guess).
    { unfold search, search_after.
      replace (Z.to_nat (m_sample_rate n)) with 0%nat by lia. reflexivity. }
    split; [exact Hsearch|]. split.
    + rewrite Hsearch. reflexivity.
    + unfold scan_callback. rewrite Hready, Hsearch. reflexivity.
  - intros Hiter. unfold search.
    rewrite (proj1 (search_after_no_iterations _ n map points guess Hiter)).
    rewrite (scan_prepare_guess _ _ _ _ _ _ _ Hready). reflexivity.
Qed.

(** ** Confidence over many cycles *)

Lemma scan_callback_ready_confidence n tf scan :
  is_ready (scan_prepare n tf scan) = true ->
  m_confidence (fst (scan_callback n tf scan))
  = m_confidence n + (m_max_confidence n - m_confidence n) * (1 # 100).
Proof.
  intros Hready. unfold scan_callback.
  destruct (scan_prepare n tf scan); [discriminate | reflexivity].
Qed.

(** X15.  Each completed cycle closes one hundredth of the gap between the
    confidence and its ceiling: after any number of completed cycles in a
    row the gap is the first gap times 0.99 to the number of cycles. *)
Theorem confidence_gap_geometric msgs : forall n,
  completes n msgs = true ->
  m_max_confidence n - m_confidence (run n msgs)
  == (m_max_confidence n - m_confidence n)
     * (99 # 100) ^ Z.of_nat (length msgs).
Proof.
  induction msgs as [|msg rest IH]; intros n Hall.
  - cbn [run fold_left length Z.of_nat]. rewrite Qpower_0_r. ring.
  - cbn [completes] in Hall. apply andb_prop in Hall as [Hmsg Hrest].
    destruct msg as [tf scan| |]; try discriminate.
    rewrite run_cons. specialize (IH _ Hrest). cbn [deliver] in IH |- *.
    rewrite scan_callback_max_confidence in IH.
    rewrite (scan_callback_ready_confidence n tf scan Hmsg) in IH.
    rewrite IH.
    replace (Z.of_nat (length (OnScan tf scan :: rest)))
      with (1 + Z.of_nat (length rest))%Z by (cbn [length]; lia).
    rewrite Qpower_plus by discriminate.
    change ((99 # 100) ^ 1) with (99 # 100). ring.
Qed.

(** ** The spread of the samples *)

(** X17.  The standard deviations of the three sampling distributions are
    the configured ones times 1 - confidence while the confidence is at most
    1, and 0 from confidence 1 on; with configured values that are not
    negative they are never negative. *)
Theorem sample_spread n map points guess :
  let st := search_first n map points guess in
  let stds := [(nd_stddev (dist_x st), m_sample_std_x n);
               (nd_stddev (dist_y st), m_sample_std_y n);
               (nd_stddev (dist_yaw st), m_sample_std_yaw n)] in
  Forall (fun p =>
    (m_confidence n <= 1 -> fst p == snd p * (1 - m_confidence n))
    /\ (1 <= m_confidence n -> fst p == 0)
    /\ (0 <= snd p -> 0 <= fst p)) stds.
Proof.
  intros st stds.
  assert (Hrel : (m_confidence n <= 1 ->
                  fmax (1 - m_confidence n) 0 == 1 - m_confidence n)
                 /\ (1 <= m_confidence n -> fmax (1 - m_confidence n) 0 == 0)
                 /\ 0 <= fmax (1 - m_confidence n) 0).
  { unfold fmax. destruct (Qle_bool (1 - m_confidence n) 0) eqn:Hle.
    - apply Qle_bool_iff in Hle. repeat split; intros; lra.
    - apply Qle_bool_false in Hle. repeat split; intros; lra. }
  destruct Hrel as (Hlow & Hhigh & Hnn).
  unfold stds, st. cbn [search_first dist_x dist_y dist_yaw
                        normal_distribution_new nd_stddev].
  repeat constructor; cbn [fst snd]; intros H;
    first [ rewrite (Hlow H); reflexivity
          | rewrite (Hhigh H); ring
          | apply Qmult_le_0_compat; assumption ].
Qed.

(** X16.  After a map is accepted, and after a pose estimate is applied, the
    confidence is 0, so the next search samples with the configured standard
    deviations in full. *)
Theorem full_spread_after_reset n map points guess :
  (forall ros_map,
     width (info ros_map) = height (info ros_map) ->
     dist_params (search_first (fst (map_callback n ros_map)) map points guess)
     = [(pose_x guess, m_sample_std_x n * fmax (1 - 0) 0);
        (pose_y guess, m_sample_std_y n * fmax (1 - 0) 0);
        (pose_yaw guess, m_sample_std_yaw n * fmax (1 - 0) 0)])
  /\ (forall tf pose base_to_odom,
        frame_id (pose_header pose) = m_map_frame n ->
        tf (m_odom_frame n) (m_base_frame n) Time_zero = Some base_to_odom ->
        dist_params (search_first (fst (pose_callback n tf pose)) map points guess)
        = [(pose_x guess, m_sample_std_x n * fmax (1 - 0) 0);
           (pose_y guess, m_sample_std_y n * fmax (1 - 0) 0);
           (pose_yaw guess, m_sample_std_yaw n * fmax (1 - 0) 0)])
  /\ fmax (1 - 0) 0 == 1.
Proof.
  split; [|split].
  - intros ros_map Hsquare. unfold map_callback.
    destruct (Nat.eqb_spec (width (info ros_map)) (height (info ros_map)));
      [reflexivity | contradiction].
  - intros tf pose base_to_odom Hframe Hlookup. unfold pose_callback.
    destruct (String.eqb_spec (frame_id (pose_header pose)) (m_map_frame n));
      [|contradiction].
    cbn [negb]. rewrite Hlookup. reflexivity.
  - reflexivity.
Qed.

(** ** Pose estimates in a row *)

(** X18.  An applied estimate replaces whatever an earlier estimate did: two
    estimates in a row, the second of which is applied, leave the node as
    the second alone would. *)
Theorem pose_callback_last_wins n tf1 tf2 pose1 pose2 base_to_odom :
  frame_id (pose_header pose2) = m_map_frame n ->
  tf2 (m_odom_frame n) (m_base_frame n) Time_zero = Some base_to_odom ->
  fst (pose_callback (fst (pose_callback n tf1 pose1)) tf2 pose2)
  = fst (pose_callback n tf2 pose2).
Proof.
  intros Hframe Hlookup.
  assert (Hsecond : forall m,
            m_map_frame m = m_map_frame n -> m_odom_frame m = m_odom_frame n ->
            m_base_frame m = m_base_frame n ->
            fst (pose_callback m tf2 pose2)
            = set_confidence
                (set_offset m
                   (vec_get (estimate_offset pose2 base_to_odom) 0)
                   (vec_get (estimate_offset pose2 base_to_odom) 1)
                   (vec_get (estimate_offset pose2 base_to_odom) 2)
                   (stamp (pose_header pose2))) 0).
  { intros m Hm Ho Hb. unfold pose_callback. rewrite Hm, Ho, Hb.
    destruct (String.eqb_spec (frame_id (pose_header pose2)) (m_map_frame n));
      [|contradiction].
    cbn [negb]. rewrite Hlookup. reflexivity. }
  rewrite (Hsecond n) by reflexivity.
  unfold pose_callback at 2.
  destruct (negb _).
  - cbn [fst]. rewrite (Hsecond n) by reflexivity. reflexivity.
  - destruct (tf1 _ _ _).
    + cbn [fst]. rewrite Hsecond by reflexivity. reflexivity.
    + cbn [fst]. rewrite (Hsecond n) by reflexivity. reflexivity.
Qed.

(** ** The converted grid as a whole *)

Lemma fold_left_preserves {A B} (P : A -> Prop) (f : A -> B -> A) (l : list B) :
  (forall a b, P a -> P (f a b)) -> forall a, P a -> P (fold_left f l a).
Proof.
  intros Hstep. induction l as [|b l IH]; intros a Ha; [exact Ha|].
  cbn [fold_left]. apply IH, Hstep, Ha.
Qed.

Lemma convert_map_scale ros_map g : gm_scale (convert_map ros_map g) = gm_scale g.
Proof.
  unfold convert_map.
  apply (fold_left_preserves (fun m => gm_scale m = gm_scale g)); [|reflexivity].
  intros m y Hm.
  apply (fold_left_preserves (fun m => gm_scale m = gm_scale g)); [|exact Hm].
  intros m' x Hm'. exact Hm'.
Qed.

(** The grid the conversion loops build, field by field, from data that
    holds all the cells. *)
Lemma convert_map_built ros_map size scale :
  length (data ros_map) = (size * size)%nat ->
  let built := convert_map ros_map (GridMap_new size scale) in
  gm_size built = size /\ gm_scale built = scale
  /\ gm_cells built = converted_cells ros_map size.
Proof.
  intros Hlen built.
  destruct (convert_rows_cells ros_map size (GridMap_new size scale)
              (GridMap_new_ok _ _) ltac:(reflexivity))
    as ([Hrows Hcols] & Hsize & Hget).
  change (fold_left _ (seq 0 _) (GridMap_new size scale)) with built
    in Hrows, Hcols, Hsize, Hget.
  change (gm_size (GridMap_new size scale)) with size in *.
  split; [exact Hsize|]. split; [apply convert_map_scale|].
  rewrite Hsize in Hrows, Hcols.
  unfold converted_cells.
  apply (nth_ext _ _ [] []).
  { rewrite Hrows, List.length_map, List.length_seq. reflexivity. }
  intros y Hy. rewrite Hrows in Hy.
  rewrite nth_map_seq by exact Hy.
  replace (nth y (gm_cells built) []) with (gm_cells built !!! y)
    by (rewrite nth_lookup, list_lookup_total_alt; reflexivity).
  apply (nth_ext _ _ 0 0).
  { rewrite Hcols by exact Hy.
    rewrite List.length_map, List.length_seq. reflexivity. }
  intros x Hx. rewrite Hcols in Hx by exact Hy.
  rewrite nth_map_seq by exact Hx.
  replace (nth x (gm_cells built !!! y) 0) with (gm_get built x y)
    by (unfold gm_get; rewrite nth_lookup, list_lookup_total_alt; reflexivity).
  rewrite Hget.
  destruct (decide _) as [_|Hn]; [|exfalso; apply Hn; lia].
  unfold read_data.
  rewrite list_lookup_lookup_total_lt by (rewrite Hlen; nia). reflexivity.
Qed.

(** X12.  The two conversion loops write every cell exactly as the row-major
    data says: from data that holds all the size x size cells, the grid they
    build from a fresh one has the given size and cell size, and as rows the
    conversions of the consecutive stretches of [data]. *)
Theorem convert_map_whole ros_map size scale :
  length (data ros_map) = (size * size)%nat ->
  let built := convert_map ros_map (GridMap_new size scale) in
  gm_size built = size /\ gm_scale built = scale
  /\ gm_cells built = converted_cells ros_map size.
Proof. apply convert_map_built. Qed.

(** ** The points of a scan *)

(** X21.  The points built from a scan are as many as the ranges for which
    [<= 0] fails: no fewer than the ranges > 0, exactly as many when no range
    is NaN, and never more than the ranges; each has weight 1. *)
Theorem scan_points_shape S scan i rs :
  length (scan_points S scan i rs)
  = length (filter (fun r => le_zero r = false) rs)
  /\ (length (filter positive rs) <= length (scan_points S scan i rs))%nat
  /\ (Forall (fun r => r <> NaN) rs ->
      length (scan_points S scan i rs) = length (filter positive rs))
  /\ (length (scan_points S scan i rs) <= length rs)%nat
  /\ Forall (fun p => pt_w p = Finite 1) (scan_points S scan i rs).
Proof.
  split; [apply scan_points_length|]. split; [|split; [|split]].
  - rewrite scan_points_length. apply filter_positive_le.
  - intros Hnan. rewrite scan_points_length, (filter_no_nan rs Hnan). reflexivity.
  - rewrite scan_points_length. apply length_filter.
  - revert i. induction rs as [|r rest IH]; intros i; [constructor|].
    cbn [scan_points]. destruct (le_zero r); [apply IH|].
    constructor; [|apply IH]. destruct r; reflexivity.
Qed.

(** ** The matrices of the helpers *)

(** X19.  [translate25(x, y) * rotate25_z(yaw)], the matrix the callback
    builds of the offset and of the best pose, carries the rotation in its
    upper left block, x and y untouched by it in the last column, and the
    yaw in row 2 of that column. *)
Theorem pose_matrix x y yaw :
  Forall2 (Forall2 Qeq)
    (translate25 x y ** rotate25_z yaw)
    [[cos yaw; - sin yaw; 0; x];
     [sin yaw; cos yaw; 0; y];
     [0; 0; 1; yaw];
     [0; 0; 0; 1]].
Proof.
  unfold translate25, rotate25_z, mat_mul. cbn.
  repeat constructor; ring.
Qed.

(** X20.  The point handed to [project] for a range [r] at the angle
    [theta]: the polar point (r cos theta, r sin theta, 0) taken through the
    basis and the origin of the sensor's transform. *)
Theorem scan_point_homogeneous trans theta r :
  let B := getBasis trans in
  let px := r * cos theta in
  let py := r * sin theta in
  Forall2 (Forall2 Qeq)
    (convert_transform_3 trans ** rotate3_z theta ** column4 r 0 0 1)
    [[mat_get B 0 0 * px + mat_get B 0 1 * py + getOrigin trans !!! 0%nat];
     [mat_get B 1 0 * px + mat_get B 1 1 * py + getOrigin trans !!! 1%nat];
     [mat_get B 2 0 * px + mat_get B 2 1 * py + getOrigin trans !!! 2%nat];
     [1]].
Proof.
  intros B px py. unfold convert_transform_3, rotate3_z, column4, mat_mul.
  cbn -[mat_get]. subst B px py. repeat constructor; ring.
Qed.

(** ** A fresh node *)

(** X22.  Whatever the parameter server holds, the node starts without a
    map, with the zero offset at time zero and confidence 0, and stays
    exactly so, sending nothing, through any sequence of scans. *)
Theorem fresh_node_ignores_scans nh :
  m_map (NeoLocalizationNode nh) = None
  /\ offset_state (NeoLocalizationNode nh)
     = {| os_x := 0; os_y := 0; os_yaw := 0; os_confidence := 0;
          os_timestamp := Time_zero |}
  /\ forall msgs, forallb is_scan msgs = true ->
       run (NeoLocalizationNode nh) msgs = NeoLocalizationNode nh
       /\ trace (NeoLocalizationNode nh) msgs = [].
Proof.
  split; [reflexivity|]. split; [reflexivity|].
  induction msgs as [|msg rest IH]; intros Hscans; [split; reflexivity|].
  cbn [forallb] in Hscans. apply andb_prop in Hscans as [Hmsg Hrest].
  destruct msg as [tf scan| |]; try discriminate.
  rewrite run_cons. cbn [trace deliver].
  rewrite (scan_callback_no_map (NeoLocalizationNode nh) tf scan eq_refl).
  cbn [fst snd app]. apply IH, Hrest.
Qed.

(** ** What a completed cycle leaves in the solver *)

Lemma check_sample_solver st : s_solver (check_sample st) = s_solver st.
Proof. unfold check_sample. destruct (Qlt_bool _ _); reflexivity. Qed.

(** X23.  After a completed cycle [m_solver] holds the best pose, but the
    score of the run made last: with at least one sample that is the score
    of the last sample, whether or not it was the best.  The line logged
    carries the best score and the new confidence. *)
Theorem scan_callback_leaves_solver n tf scan map L points guess :
  scan_prepare n tf scan = Ready map L points guess ->
  let found := search n map points guess in
  let n' := fst (scan_callback n tf scan) in
  (pose_x (m_solver n'), pose_y (m_solver n'), pose_yaw (m_solver n'))
  = (best_x found, best_y found, best_yaw found)
  /\ (forall k, Z.to_nat (m_sample_rate n) = S k ->
        r_norm (m_solver n') = r_norm (tried k n map points guess))
  /\ ((m_sample_rate n <= 0)%Z ->
        r_norm (m_solver n') = r_norm (solve_iterations n map points guess))
  /\ snd (scan_callback n tf scan)
     = broadcast n' ++ [ROS_INFO (ScanResult (best_score found) (m_confidence n'))].
Proof.
  intros Hready found n'.
  assert (Hcb : scan_callback n tf scan = scan_update n scan L found).
  { unfold scan_callback. rewrite Hready. reflexivity. }
  unfold n'. rewrite Hcb. split; [reflexivity|]. split; [|split].
  - intros k Hk. cbn [scan_update fst m_solver assign use_best set_pose r_norm].
    unfold found, search. rewrite Hk, search_after_succ.
    unfold sample_body. rewrite check_sample_solver. reflexivity.
  - intros Hrate. cbn [scan_update fst m_solver assign use_best set_pose r_norm].
    unfold found, search, search_after.
    replace (Z.to_nat (m_sample_rate n)) with 0%nat by lia. reflexivity.
  - reflexivity.
Qed.

(** ** A map installed as it is *)

Lemma GridMap_eta g :
  g = {| gm_size := gm_size g; gm_scale := gm_scale g; gm_cells := gm_cells g |}.
Proof. destruct g. reflexivity. Qed.

(** X24.  With neither downscaling nor smoothing configured, an accepted
    map that carries all its cells installs exactly the converted data: a
    grid of the map's width and resolution whose rows are the conversions of
    the rows of [data]; and only the line with the dimensions is logged. *)
Theorem map_callback_plain n ros_map :
  width (info ros_map) = height (info ros_map) ->
  length (data ros_map) = (width (info ros_map) * height (info ros_map))%nat ->
  (m_map_downscale n <= 0)%Z -> (m_num_smooth n <= 0)%Z ->
  m_map (fst (map_callback n ros_map))
  = Some {| gm_size := width (info ros_map);
            gm_scale := resolution (info ros_map);
            gm_cells := converted_cells ros_map (width (info ros_map)) |}
  /\ snd (map_callback n ros_map)
     = [ROS_INFO (GotMap (width (info ros_map)) (height (info ros_map))
                         (resolution (info ros_map)))].
Proof.
  intros Hsquare Hlen Hdown Hsmooth. unfold map_callback.
  destruct (Nat.eqb_spec (width (info ros_map)) (height (info ros_map)));
    [|contradiction].
  replace (Z.to_nat (m_map_downscale n)) with 0%nat by lia.
  replace (Z.to_nat (m_num_smooth n)) with 0%nat by lia.
  cbn [negb Nat.iter fst snd seq List.map set_confidence set_map assign m_map].
  split; [|reflexivity]. f_equal.
  destruct (convert_map_built ros_map (width (info ros_map))
              (resolution (info ros_map)) ltac:(congruence))
    as (Hsize & Hscale & Hcells).
  rewrite (GridMap_eta (convert_map ros_map _)), Hsize, Hscale, Hcells.
  reflexivity.
Qed.

(** ** The confidence stays short of the ceiling *)

Lemma deliver_below_ceiling n msg :
  0 < m_max_confidence n -> m_confidence n < m_max_confidence n ->
  m_confidence (fst (deliver n msg)) < m_max_confidence n.
Proof.
  intros Hmax Hc. destruct msg as [tf scan|tf pose|ros_map]; cbn [deliver].
  - destruct (scan_callback_confidence n tf scan) as [-> | ->]; lra.
  - destruct (pose_callback_confidence n tf pose) as [-> | ->]; lra.
  - destruct (map_callback_confidence n ros_map) as [-> | ->]; lra.
Qed.

Lemma run_below_ceiling msgs : forall n,
  0 < m_max_confidence n -> m_confidence n < m_max_confidence n ->
  m_confidence (run n msgs) < m_max_confidence n.
Proof.
  induction msgs as [|msg rest IH]; intros n Hmax Hc; [exact Hc|].
  rewrite run_cons.
  pose proof (deliver_max_confidence n msg) as Hm.
  rewrite <- Hm. apply IH; rewrite Hm; [exact Hmax|].
  apply deliver_below_ceiling; assumption.
Qed.

(** X25.  A confidence below a positive ceiling stays below it whatever is
    delivered: the ceiling is never reached.  With a ceiling of at most 1,
    every later search therefore samples with standard deviations that are
    positive wherever the configured ones are. *)
Theorem confidence_never_reaches_ceiling n msgs map points guess :
  0 < m_max_confidence n -> m_confidence n < m_max_confidence n ->
  let later := run n msgs in
  let st := search_first later map points guess in
  m_confidence later < m_max_confidence n
  /\ (m_max_confidence n <= 1 ->
       (0 < m_sample_std_x n -> 0 < nd_stddev (dist_x st))
       /\ (0 < m_sample_std_y n -> 0 < nd_stddev (dist_y st))
       /\ (0 < m_sample_std_yaw n -> 0 < nd_stddev (dist_yaw st))).
Proof.
  intros Hmax Hc later st.
  pose proof (run_below_ceiling msgs n Hmax Hc) as Hlater. fold later in Hlater.
  split; [exact Hlater|]. intros Hone.
  pose proof (run_keeps_config msgs n) as Hcfg. fold later in Hcfg.
  unfold config in Hcfg. injection Hcfg as _ _ _ _ _ _ _ _ _ _ _ Hx Hy Hyaw.
  assert (Hrel : 0 < fmax (1 - m_confidence later) 0).
  { unfold fmax. destruct (Qle_bool (1 - m_confidence later) 0) eqn:Hle.
    - apply Qle_bool_iff in Hle. lra.
    - apply Qle_bool_false in Hle. exact Hle. }
  unfold st. cbn [search_first dist_x dist_y dist_yaw normal_distribution_new
                   nd_stddev].
  rewrite Hx, Hy, Hyaw.
  repeat split; intros Hstd; apply Qmult_lt_0_compat; assumption.
Qed.

End Further.
(** * The node at work: concrete runs *)

Import Standin.

(** In the stand-in environment the search does improve on its first run. *)
Example search_improves :
  match scan_prepare (node_with_map nh_default) tf_identity scan_12 with
  | Ready map L points guess =>
      best_score (search (node_with_map nh_default) map points guess)
      < r_norm (solve_iterations (node_with_map nh_default) map points guess)
  | Skipped _ _ => False
  end.
Proof. vm_compute. reflexivity. Qed.

(** From the yaw 3 toward -3 the way is up, through the half turn: with the
    gain 0.5 the filter lands on it, with the gain 1 on the far side. *)
Example blend_3_toward_minus_3 :
  0 < angles.shortest_angular_distance 3 (-3)
  /\ angles.shortest_angular_distance 3 (-3) == 2 * M_PI - 6
  /\ blend_yaw 3 (-3) (1 # 2) == M_PI
  /\ blend_yaw 3 (-3) 1 == 2 * M_PI - 3.
Proof. repeat split. Qed.

(** C1.  With [confidence_gain] configured as 0.5 the node holds 0.5 in
    [m_confidence_gain], and a completed scan cycle from confidence 0 with the
    ceiling 0.95 ends at 0 + (0.95 - 0) * 0.01, not at 0 + (0.95 - 0) * 0.5. *)
Theorem confidence_gain_not_applied :
  let n := node_with_map nh_gain_half in
  let n' := fst (scan_callback n tf_identity scan_12) in
  m_confidence_gain n = 1 # 2
  /\ m_confidence n = 0
  /\ m_max_confidence n = 95 # 100
  /\ m_confidence n' = 0 + ((95 # 100) - 0) * (1 # 100)
  /\ ~ m_confidence n'
       == m_confidence n
          + (m_max_confidence n - m_confidence n) * m_confidence_gain n.
Proof.
  cbv zeta. repeat split; try (vm_compute; reflexivity).
  apply Qeq_bool_neq. vm_compute. reflexivity.
Qed.

(** C2, as stated, fails: from the yaw 3 toward the corrected yaw -2, both
    within a half turn of 0, with the default gain 0.5, the new yaw is more
    than a half turn. *)
Lemma yaw_leaves_half_turn :
  let n := node_yaw 3 in
  let target := vec_get (corrected_offset n L_identity (search_at (-2))) 2 in
  let n' := fst (scan_update n scan_12 L_identity (search_at (-2))) in
  m_update_gain n = 1 # 2
  /\ m_offset_yaw n = 3 /\ - M_PI < 3 /\ 3 <= M_PI
  /\ target = -2 /\ - M_PI < -2 /\ -2 <= M_PI
  /\ ~ m_offset_yaw n' <= M_PI.
Proof.
  cbv zeta. repeat split; try (vm_compute; reflexivity);
    try (apply Qle_bool_iff; vm_compute; reflexivity).
  apply Qlt_not_le, Qlt_bool_true. vm_compute. reflexivity.
Qed.

(** The yaw filter at the same input. *)
Lemma scan_update_yaw_shorter_path_witness :
  0 <= m_update_gain (node_yaw 3) <= 1
  /\ m_offset_yaw (fst (scan_update (node_yaw 3) scan_12 L_identity (search_at (-2))))
     = 3 + angles.shortest_angular_distance 3
             (vec_get (corrected_offset (node_yaw 3) L_identity (search_at (-2))) 2)
           * m_update_gain (node_yaw 3).
Proof.
  assert (H : 0 <= m_update_gain (node_yaw 3) <= 1).
  { split; apply Qle_bool_iff; vm_compute; reflexivity. }
  split; [exact H|].
  exact (proj1 (scan_update_yaw_shorter_path (node_yaw 3) scan_12 L_identity
                  (search_at (-2)) H)).
Defined.

(** C4, as stated, fails: of a scan with nine ranges > 0 and three NaN
    ranges twelve points are made, and the cycle is not skipped: the
    confidence is raised and a transform is sent. *)
Lemma nan_ranges_are_points :
  let n := node_with_map nh_default in
  (length (valid_ranges scan_9_nan) < 10)%nat
  /\ length (point_ranges scan_9_nan) = 12%nat
  /\ offset_state (fst (scan_callback n tf_identity scan_9_nan)) <> offset_state n
  /\ transforms_sent (snd (scan_callback n tf_identity scan_9_nan)) <> [].
Proof.
  cbv zeta. split; [vm_compute; lia|]. split; [vm_compute; reflexivity|]. split.
  - assert (Hc : m_confidence (fst (scan_callback (node_with_map nh_default)
                                      tf_identity scan_9_nan))
                 <> m_confidence (node_with_map nh_default)).
    { vm_compute. discriminate. }
    intros H. apply Hc. exact (f_equal os_confidence H).
  - vm_compute. discriminate.
Qed.

(** A scan with nine returns, after a scan that was used. *)
Lemma scan_callback_too_few_points_witness :
  (length (point_ranges scan_9) < 10)%nat
  /\ offset_state (fst (scan_callback (node_after_scan nh_default) tf_identity scan_9))
     = offset_state (node_after_scan nh_default)
  /\ transforms_sent (snd (scan_callback (node_after_scan nh_default) tf_identity scan_9))
     = [].
Proof.
  assert (H : (length (point_ranges scan_9) < 10)%nat) by (vm_compute; lia).
  split; [exact H|].
  exact (proj1 (scan_callback_too_few_points (node_after_scan nh_default)
                  tf_identity scan_9 H)).
Defined.

(** A 50 x 60 map. *)
Lemma map_callback_non_square_witness :
  width (info map_50x60) <> height (info map_50x60)
  /\ fst (map_callback (node_after_scan nh_default) map_50x60)
     = node_after_scan nh_default.
Proof.
  assert (H : width (info map_50x60) <> height (info map_50x60)).
  { cbn. lia. }
  split; [exact H|].
  exact (proj1 (map_callback_non_square (node_after_scan nh_default) map_50x60 H)).
Defined.

(** C6, as stated, fails: an estimate in the map frame arrives while the
    odometry transform is not known; the confidence is not reset and the
    offset is not the estimate's. *)
Lemma pose_estimate_not_always_applied :
  let n := node_after_scan nh_default in
  let n' := fst (pose_callback n tf_empty (estimate "map")) in
  frame_id (pose_header (estimate "map")) = m_map_frame n
  /\ ~ m_confidence n' == 0
  /\ offset_state n' = offset_state n.
Proof.
  cbv zeta. split; [vm_compute; reflexivity|]. split.
  - apply Qeq_bool_neq. vm_compute. reflexivity.
  - vm_compute. reflexivity.
Qed.

(** An estimate in the map frame with the odometry known. *)
Lemma pose_callback_overwrites_witness :
  frame_id (pose_header (estimate "map")) = m_map_frame (node_after_scan nh_default)
  /\ tf_identity (m_odom_frame (node_after_scan nh_default))
                 (m_base_frame (node_after_scan nh_default)) Time_zero
     = Some identity_transform
  /\ os_confidence
       (offset_state (fst (pose_callback (node_after_scan nh_default) tf_identity
                             (estimate "map")))) = 0.
Proof.
  assert (Hframe : frame_id (pose_header (estimate "map"))
                   = m_map_frame (node_after_scan nh_default)).
  { vm_compute. reflexivity. }
  split; [exact Hframe|]. split; [reflexivity|].
  rewrite (proj1 (pose_callback_overwrites (node_after_scan nh_default) tf_identity
                    (estimate "map")) identity_transform Hframe eq_refl).
  reflexivity.
Defined.

(** An estimate in the map frame with the odometry unknown. *)
Lemma pose_callback_lookup_failure_witness :
  frame_id (pose_header (estimate "map")) = m_map_frame (node_after_scan nh_default)
  /\ tf_empty (m_odom_frame (node_after_scan nh_default))
              (m_base_frame (node_after_scan nh_default)) Time_zero = None
  /\ fst (pose_callback (node_after_scan nh_default) tf_empty (estimate "map"))
     = node_after_scan nh_default.
Proof.
  assert (Hframe : frame_id (pose_header (estimate "map"))
                   = m_map_frame (node_after_scan nh_default)).
  { vm_compute. reflexivity. }
  split; [exact Hframe|]. split; [reflexivity|].
  exact (proj1 (pose_callback_lookup_failure (node_after_scan nh_default) tf_empty
                  (estimate "map") Hframe eq_refl)).
Defined.

(** A scan with twelve returns gets to the search, with the default ten
    samples. *)
Lemma samples_around_guess_witness :
  match scan_prepare (node_with_map nh_default) tf_identity scan_12 with
  | Ready map L points guess =>
      (3 < Z.to_nat (m_sample_rate (node_with_map nh_default)))%nat
      /\ scan_callback (node_with_map nh_default) tf_identity scan_12
         = scan_update (node_with_map nh_default) scan_12 L
             (search (node_with_map nh_default) map points guess)
  | Skipped _ _ => False
  end.
Proof.
  assert (Hr : is_ready (scan_prepare (node_with_map nh_default) tf_identity
                            scan_12) = true) by (vm_compute; reflexivity).
  destruct (scan_prepare (node_with_map nh_default) tf_identity scan_12)
    as [n' out | map L points guess] eqn:Hready.
  - discriminate Hr.
  - assert (Hk : (3 < Z.to_nat (m_sample_rate (node_with_map nh_default)))%nat).
    { vm_compute. lia. }
    split; [exact Hk|].
    exact (proj1 (samples_around_guess (node_with_map nh_default) tf_identity
                    scan_12 map L points guess 3%nat Hready Hk)).
Defined.

(** The node after one scan, and a second scan. *)
Lemma confidence_bounds_witness :
  0 <= m_confidence (node_after_scan nh_default)
    <= m_max_confidence (node_after_scan nh_default)
  /\ m_confidence (node_after_scan nh_default)
     <= m_confidence (fst (scan_callback (node_after_scan nh_default)
                             tf_identity scan_12)).
Proof.
  assert (H : 0 <= m_confidence (node_after_scan nh_default)
              <= m_max_confidence (node_after_scan nh_default)).
  { split; apply Qle_bool_iff; vm_compute; reflexivity. }
  split; [exact H|].
  exact (proj1 (proj1 (confidence_bounds (node_after_scan nh_default) H)
                  tf_identity scan_12)).
Defined.

(** The cell of the 4 x 4 map with the raw value 127, and the grid
    installed where downscaling and smoothing are as the spec describes
    them. *)
Lemma map_callback_cells_witness :
  width (info map_4x4) = height (info map_4x4)
  /\ length (data map_4x4) = (width (info map_4x4) * height (info map_4x4))%nat
  /\ data map_4x4 !! (1 * width (info map_4x4) + 0)%nat = Some 127%Z
  /\ gm_get (convert_map map_4x4
               (GridMap_new (width (info map_4x4)) (resolution (info map_4x4))))
            0 1 = 1
  /\ @grid_ops_as_spec extern_spec_grid
  /\ exists installed,
       @m_map extern_spec_grid
         (fst (@map_callback extern_spec_grid
                 (@NeoLocalizationNode extern_spec_grid nh_default) map_4x4))
       = Some installed
       /\ in_unit installed.
Proof.
  assert (Hsquare : width (info map_4x4) = height (info map_4x4)) by reflexivity.
  assert (Hlen : length (data map_4x4)
                 = (width (info map_4x4) * height (info map_4x4))%nat)
    by reflexivity.
  split; [exact Hsquare|]. split; [exact Hlen|]. split; [reflexivity|].
  split.
  { destruct (map_callback_cells (NeoLocalizationNode nh_default) map_4x4 0 1
                Hsquare Hlen ltac:(cbn; lia) ltac:(cbn; lia))
      as (_ & _ & _ & _ & _ & Habove & _).
    apply Habove. reflexivity. }
  assert (Hspec : @grid_ops_as_spec extern_spec_grid).
  { split; intros g; reflexivity. }
  split; [exact Hspec|].
  destruct (@map_callback_cells extern_spec_grid
              (@NeoLocalizationNode extern_spec_grid nh_default) map_4x4 0 1
              Hsquare Hlen ltac:(cbn; lia) ltac:(cbn; lia))
    as (_ & _ & _ & _ & _ & _ & _ & Hinstalled).
  exact (Hinstalled Hspec).
Defined.

(** ** Concrete runs for the further properties *)

(** The scan with twelve returns gets to the search, on any node that has
    taken the 4 x 4 map. *)
Lemma scan_12_ready nh :
  scan_prepare (node_with_map nh) tf_identity scan_12
  = Ready (grid_of (node_with_map nh)) L_identity points_12
          (guess_of (node_with_map nh)).
Proof.
  assert (Hmap : m_map (node_with_map nh) = Some (grid_of (node_with_map nh))).
  { unfold grid_of, node_with_map.
    destruct (map_callback_installs (NeoLocalizationNode nh) map_4x4 eq_refl)
      as [g ->]. reflexivity. }
  assert (Hlen : (length points_12 <? 10)%nat = false).
  { vm_compute. reflexivity. }
  unfold scan_prepare. rewrite Hmap.
  cbv beta iota delta [tf_identity].
  fold L_identity. cbv zeta.
  change (scan_points (convert_transform_3 identity_transform) scan_12 0
            (ranges scan_12)) with points_12.
  rewrite Hlen. reflexivity.
Qed.

Lemma scans_without_map_witness :
  m_map (NeoLocalizationNode nh_default) = None
  /\ scan_callback (NeoLocalizationNode nh_default) tf_identity scan_12
     = (NeoLocalizationNode nh_default, []).
Proof.
  split; [reflexivity|].
  exact (proj1 (scans_without_map (NeoLocalizationNode nh_default) eq_refl)
           tf_identity scan_12).
Defined.

Lemma scan_callback_lookup_failure_witness :
  m_map (node_with_map nh_light) = Some (grid_of (node_with_map nh_light))
  /\ tf_empty (m_base_frame (node_with_map nh_light))
              (frame_id (scan_header scan_12)) (stamp (scan_header scan_12))
     = None
  /\ scan_callback (node_with_map nh_light) tf_empty scan_12
     = (node_with_map nh_light, [ROS_WARN LookupSensorToBaseFailed]).
Proof.
  assert (Hmap : m_map (node_with_map nh_light)
                 = Some (grid_of (node_with_map nh_light))).
  { vm_compute. reflexivity. }
  split; [exact Hmap|]. split; [reflexivity|].
  exact (proj1 (scan_callback_lookup_failure (node_with_map nh_light) tf_empty
                  scan_12 _ Hmap) eq_refl).
Defined.

Lemma scan_callback_too_few_sets_guess_witness :
  (length (point_ranges scan_9) < 10)%nat
  /\ scan_callback (node_with_map nh_light) tf_identity scan_9
     = (set_solver (node_with_map nh_light) (guess_of (node_with_map nh_light)),
        [ROS_WARN (NumberOfPointsTooLow (length (point_ranges scan_9)))]).
Proof.
  assert (Hfew : (length (point_ranges scan_9) < 10)%nat) by (vm_compute; lia).
  split; [exact Hfew|].
  assert (Hmap : m_map (node_with_map nh_light)
                 = Some (grid_of (node_with_map nh_light))).
  { vm_compute. reflexivity. }
  exact (scan_callback_too_few_sets_guess (node_with_map nh_light) tf_identity
           scan_9 _ identity_transform identity_transform Hmap eq_refl eq_refl
           Hfew).
Defined.

Lemma convert_map_whole_witness :
  length (data map_4x4) = (4 * 4)%nat
  /\ gm_cells (convert_map map_4x4 (GridMap_new 4 (5 # 100)))
     = converted_cells map_4x4 4.
Proof.
  split; [reflexivity|].
  exact (proj2 (proj2 (convert_map_whole map_4x4 4 (5 # 100) eq_refl))).
Defined.

Lemma scan_callback_xy_filter_witness :
  0 <= m_update_gain (node_with_map nh_light) <= 1
  /\ m_offset_x (node_with_map nh_light)
     <= m_offset_x (fst (scan_callback (node_with_map nh_light) tf_identity scan_12)).
Proof.
  assert (Hgain : 0 <= m_update_gain (node_with_map nh_light) <= 1).
  { split; apply Qle_bool_iff; vm_compute; reflexivity. }
  split; [exact Hgain|].
  destruct (scan_callback_xy_filter _ _ _ _ _ _ _ (scan_12_ready nh_light) Hgain)
    as (_ & _ & Hup & _).
  refine (proj1 (Hup _)). apply Qle_bool_iff. vm_compute. reflexivity.
Defined.

Lemma scan_callback_yaw_filter_witness :
  m_offset_yaw (fst (scan_callback (node_with_map nh_light) tf_identity scan_12))
  == vec_get (corrected_offset (node_with_map nh_light) L_identity
                (search (node_with_map nh_light)
                   (grid_of (node_with_map nh_light)) points_12
                   (guess_of (node_with_map nh_light)))) 2
     * m_update_gain (node_with_map nh_light)
     + m_offset_yaw (node_with_map nh_light)
       * (1 - m_update_gain (node_with_map nh_light)).
Proof.
  apply (scan_callback_yaw_filter _ _ _ _ _ _ _ (scan_12_ready nh_light)).
  - apply Qlt_bool_true. vm_compute. reflexivity.
  - apply Qle_bool_iff. vm_compute. reflexivity.
Defined.

Lemma scan_callback_gain_ends_witness :
  m_update_gain (node_with_map nh_frozen) == 0
  /\ m_offset_x (fst (scan_callback (node_with_map nh_frozen) tf_identity scan_12))
     == m_offset_x (node_with_map nh_frozen)
  /\ m_offset_time (fst (scan_callback (node_with_map nh_frozen) tf_identity
                           scan_12))
     = stamp (scan_header scan_12)
  /\ m_confidence (fst (scan_callback (node_with_map nh_frozen) tf_identity
                          scan_12))
     = m_confidence (node_with_map nh_frozen)
       + (m_max_confidence (node_with_map nh_frozen)
          - m_confidence (node_with_map nh_frozen)) * (1 # 100).
Proof.
  assert (Hgain : m_update_gain (node_with_map nh_frozen) == 0).
  { vm_compute. reflexivity. }
  split; [exact Hgain|].
  destruct (scan_callback_gain_ends _ _ _ _ _ _ _ (scan_12_ready nh_frozen))
    as [Hzero _].
  destruct (Hzero Hgain) as (Hx & _ & _ & Htime & Hconf).
  split; [exact Hx|]. split; [exact Htime | exact Hconf].
Defined.

Lemma broadcast_off_sends_nothing_witness :
  m_broadcast_tf (NeoLocalizationNode nh_quiet) = false
  /\ transforms_sent (trace (NeoLocalizationNode nh_quiet) map_scan_pose) = [].
Proof.
  split; [reflexivity|].
  exact (broadcast_off_sends_nothing map_scan_pose (NeoLocalizationNode nh_quiet)
           eq_refl).
Defined.

Lemma map_callback_accepts_witness :
  width (info map_4x4) = height (info map_4x4)
  /\ m_confidence (fst (map_callback (node_after_scan nh_light) map_4x4)) = 0
  /\ m_offset_x (fst (map_callback (node_after_scan nh_light) map_4x4))
     = m_offset_x (node_after_scan nh_light).
Proof.
  split; [reflexivity|].
  destruct (map_callback_accepts (node_after_scan nh_light) map_4x4 eq_refl)
    as (Hoffset & _).
  split.
  - exact (f_equal os_confidence Hoffset).
  - exact (f_equal os_x Hoffset).
Defined.

Lemma search_degenerate_bounds_witness :
  (m_sample_rate (node_with_map nh_no_samples) <= 0)%Z
  /\ m_generator (fst (scan_callback (node_with_map nh_no_samples) tf_identity
                         scan_12))
     = m_generator (node_with_map nh_no_samples).
Proof.
  assert (Hrate : (m_sample_rate (node_with_map nh_no_samples) <= 0)%Z).
  { vm_compute. discriminate. }
  split; [exact Hrate|].
  destruct (search_degenerate_bounds _ _ _ _ _ _ _ (scan_12_ready nh_no_samples))
    as [Hnone _].
  exact (proj2 (proj2 (Hnone Hrate))).
Defined.

Lemma confidence_gap_geometric_witness :
  completes (node_with_map nh_light) two_scans = true
  /\ m_max_confidence (node_with_map nh_light)
     - m_confidence (run (node_with_map nh_light) two_scans)
     == (m_max_confidence (node_with_map nh_light)
         - m_confidence (node_with_map nh_light))
        * (99 # 100) ^ Z.of_nat (length two_scans).
Proof.
  assert (Hall : completes (node_with_map nh_light) two_scans = true).
  { vm_compute. reflexivity. }
  split; [exact Hall|].
  exact (confidence_gap_geometric two_scans (node_with_map nh_light) Hall).
Defined.

Lemma pose_callback_last_wins_witness :
  frame_id (pose_header estimate_2) = m_map_frame (node_with_map nh_light)
  /\ fst (pose_callback
            (fst (pose_callback (node_with_map nh_light) tf_identity
                    (estimate "map")))
            tf_identity estimate_2)
     = fst (pose_callback (node_with_map nh_light) tf_identity estimate_2).
Proof.
  assert (Hframe : frame_id (pose_header estimate_2)
                   = m_map_frame (node_with_map nh_light)).
  { vm_compute. reflexivity. }
  split; [exact Hframe|].
  exact (pose_callback_last_wins (node_with_map nh_light) tf_identity tf_identity
           (estimate "map") estimate_2 identity_transform Hframe eq_refl).
Defined.

Lemma scan_callback_leaves_solver_witness :
  Z.to_nat (m_sample_rate (node_with_map nh_light)) = 2%nat
  /\ r_norm (m_solver (fst (scan_callback (node_with_map nh_light) tf_identity
                              scan_12)))
     = r_norm (tried 1 (node_with_map nh_light)
                 (grid_of (node_with_map nh_light)) points_12
                 (guess_of (node_with_map nh_light))).
Proof.
  assert (Hrate : Z.to_nat (m_sample_rate (node_with_map nh_light)) = 2%nat).
  { vm_compute. reflexivity. }
  split; [exact Hrate|].
  destruct (scan_callback_leaves_solver _ _ _ _ _ _ _ (scan_12_ready nh_light))
    as (_ & Hlast & _).
  exact (Hlast 1%nat Hrate).
Defined.

Lemma map_callback_plain_witness :
  width (info map_4x4) = height (info map_4x4)
  /\ length (data map_4x4) = (width (info map_4x4) * height (info map_4x4))%nat
  /\ (m_map_downscale (NeoLocalizationNode nh_plain) <= 0)%Z
  /\ (m_num_smooth (NeoLocalizationNode nh_plain) <= 0)%Z
  /\ m_map (fst (map_callback (NeoLocalizationNode nh_plain) map_4x4))
     = Some {| gm_size := 4; gm_scale := 5 # 100;
               gm_cells := converted_cells map_4x4 4 |}.
Proof.
  assert (Hdown : (m_map_downscale (NeoLocalizationNode nh_plain) <= 0)%Z).
  { vm_compute. discriminate. }
  assert (Hsmooth : (m_num_smooth (NeoLocalizationNode nh_plain) <= 0)%Z).
  { vm_compute. discriminate. }
  split; [reflexivity|]. split; [reflexivity|].
  split; [exact Hdown|]. split; [exact Hsmooth|].
  exact (proj1 (map_callback_plain (NeoLocalizationNode nh_plain) map_4x4 eq_refl
                  eq_refl Hdown Hsmooth)).
Defined.

Lemma confidence_never_reaches_ceiling_witness :
  0 < m_max_confidence (NeoLocalizationNode nh_light)
  /\ m_confidence (NeoLocalizationNode nh_light)
     < m_max_confidence (NeoLocalizationNode nh_light)
  /\ m_confidence (run (NeoLocalizationNode nh_light) map_scan_pose)
     < m_max_confidence (NeoLocalizationNode nh_light).
Proof.
  assert (Hmax : 0 < m_max_confidence (NeoLocalizationNode nh_light))
    by reflexivity.
  assert (Hc : m_confidence (NeoLocalizationNode nh_light)
               < m_max_confidence (NeoLocalizationNode nh_light))
    by reflexivity.
  split; [exact Hmax|]. split; [exact Hc|].
  exact (proj1 (confidence_never_reaches_ceiling (NeoLocalizationNode nh_light)
                  map_scan_pose (GridMap_new 0 0) [] Solver_default Hmax Hc)).
Defined.
